(** * create-stacks-dapp: a shallow embedding of the scaffolding CLI

    The development follows the TypeScript sources [src/config.ts],
    [src/utils.ts] and [src/index.ts].  JavaScript strings are sequences of
    UTF-16 code units; the synchronous calls to the outside world
    ([execSync], [fs], [readline], [process.exit]) are modelled by a small
    monad that records every action of the program and asks an environment
    record for the outcome of each of them. *)

From Stdlib Require Import List NArith ZArith Bool String Ascii Lia Floats.
From Stdlib Require DecimalPos DecimalN.
Import ListNotations.

Set Implicit Arguments.

(** ** JavaScript strings *)

Module JS.

(** A UTF-16 code unit.  Every function below is total on [N]; real code
    units are the values below 65536. *)
Definition code_unit := N.
Definition jsstring := list code_unit.

Local Open Scope N_scope.

(** An ASCII literal of the source, as a JavaScript string. *)
Definition lit (s : string) : jsstring :=
  map N_of_ascii (list_ascii_of_string s).

Definition dquote : jsstring := [34%N].

Fixpoint str_eqb (a b : jsstring) : bool :=
  match a, b with
  | [], [] => true
  | x :: a', y :: b' => N.eqb x y && str_eqb a' b'
  | _, _ => false
  end.

(** [Array.prototype.includes] on an array of strings. *)
Definition includes (l : list jsstring) (s : jsstring) : bool :=
  existsb (str_eqb s) l.

(** [String.prototype.startsWith]. *)
Fixpoint startsWith (s prefix : jsstring) {struct prefix} : bool :=
  match prefix, s with
  | [], _ => true
  | p :: prefix', c :: s' => N.eqb c p && startsWith s' prefix'
  | _ :: _, [] => false
  end.

Definition between (lo hi c : code_unit) : bool :=
  (N.leb lo c && N.leb c hi)%bool.

Definition is_upper (c : code_unit) : bool := between 65 90 c.
Definition is_lower (c : code_unit) : bool := between 97 122 c.
Definition is_digit (c : code_unit) : bool := between 48 57 c.
Definition hyphen : code_unit := 45%N.
Definition underscore : code_unit := 95%N.
Definition is_hyphen (c : code_unit) : bool := N.eqb c hyphen.
Definition is_underscore (c : code_unit) : bool := N.eqb c underscore.

(** ECMAScript [WhiteSpace] and [LineTerminator] code points: what
    [String.prototype.trim] strips and [parseInt] skips. *)
Definition is_whitespace (c : code_unit) : bool :=
  (between 9 13 c || N.eqb c 32 || N.eqb c 160 || N.eqb c 5760
   || between 8192 8202 c || N.eqb c 8232 || N.eqb c 8233
   || N.eqb c 8239 || N.eqb c 8287 || N.eqb c 12288 || N.eqb c 65279)%bool.

Fixpoint dropWhile (p : code_unit -> bool) (s : jsstring) : jsstring :=
  match s with
  | [] => []
  | c :: s' => if p c then dropWhile p s' else s
  end.

Definition trimStart (s : jsstring) : jsstring := dropWhile is_whitespace s.
Definition trimEnd (s : jsstring) : jsstring :=
  rev (dropWhile is_whitespace (rev s)).
Definition trim (s : jsstring) : jsstring := trimEnd (trimStart s).

(** *** Case conversion

    [String.prototype.toLowerCase] maps the ASCII letters A-Z to a-z and
    leaves every other ASCII code unit alone.  What it does to a code unit
    from 128 on is given by the Unicode tables of the host (the result may
    be longer than one unit and may depend on the neighbours, as for the
    final sigma); the host supplies it. [new URL(s)] is the host's WHATWG
    URL parser; only whether it throws matters here. *)
Class Host := {
  lower_nonascii : jsstring -> code_unit -> jsstring -> jsstring;
  url_parses : jsstring -> bool
}.

Definition ascii_lower (c : code_unit) : code_unit :=
  if is_upper c then (c + 32)%N else c.

Section CaseConversion.
Context {host : Host}.

Fixpoint lower_from (before s : jsstring) : jsstring :=
  match s with
  | [] => []
  | c :: rest =>
      (if N.ltb c 128 then [ascii_lower c]
       else lower_nonascii before c rest)
      ++ lower_from (before ++ [c]) rest
  end.

Definition toLowerCase (s : jsstring) : jsstring := lower_from [] s.
End CaseConversion.

(** A host whose case tables leave the code units from 128 on unchanged and
    whose URL parser accepts exactly the strings with an [https://] or
    [http://] prefix; it serves for concrete runs. *)
Definition plain_host : Host := {|
  lower_nonascii := fun _ c _ => [c];
  url_parses := fun s =>
    (startsWith s (lit "https://") || startsWith s (lit "http://"))%bool
|}.

(** *** parseInt

    [parseInt(s, 10)]: leading white space is skipped, one sign is read,
    then the longest prefix of decimal digits; no digit gives [NaN]
    ([None]).  The digits are read as an exact integer: the double that
    JavaScript returns is that integer rounded, and rounding is monotone
    and exact up to 2^53, so comparisons with an array length, which is
    below 2^32, agree. *)
Fixpoint digits_value (acc : Z) (s : jsstring) : Z :=
  match s with
  | [] => acc
  | c :: s' =>
      if is_digit c then digits_value (10 * acc + Z.of_N (c - 48)) s'
      else acc
  end.

Definition starts_with_digit (s : jsstring) : bool :=
  match s with
  | c :: _ => is_digit c
  | [] => false
  end.

Definition parseInt10 (s : jsstring) : option Z :=
  let s1 := trimStart s in
  let '(sign, s2) :=
    match s1 with
    | c :: rest =>
        if N.eqb c 45 then ((-1)%Z, rest)
        else if N.eqb c 43 then (1%Z, rest)
        else (1%Z, s1)
    | [] => (1%Z, s1)
    end in
  if starts_with_digit s2 then Some (sign * digits_value 0%Z s2)%Z else None.

(** *** Regular expressions

    [String.prototype.replace] with a global pattern that never matches the
    empty string: the input is scanned from the left; at each position the
    pattern is tried; a match of [n] units is replaced and the scan resumes
    after it, otherwise the unit is copied.  A pattern is given by its
    matcher: from whether the position is the start of the input and the
    rest of the input, the length of the match there (0 for none). *)
Definition matcher := bool -> jsstring -> nat.

Fixpoint scan (m : matcher) (repl : jsstring) (at_start : bool)
    (skip : nat) (s : jsstring) : jsstring :=
  match s with
  | [] => []
  | c :: s' =>
      match skip with
      | S k => scan m repl false k s'
      | O =>
          match m at_start s with
          | O => c :: scan m repl false 0%nat s'
          | S k => repl ++ scan m repl false k s'
          end
      end
  end.

Definition replace_all (m : matcher) (repl s : jsstring) : jsstring :=
  scan m repl true 0%nat s.

(** The length of the longest prefix of [s] made of units satisfying [p]:
    what a greedy [[...]+] consumes. *)
Fixpoint run_length (p : code_unit -> bool) (s : jsstring) : nat :=
  match s with
  | c :: s' => if p c then S (run_length p s') else 0%nat
  | [] => 0%nat
  end.

End JS.

Import JS.

(** ** src/config.ts *)

Module CONFIG.
Definition CLI_NAME : jsstring := lit "create-stx-dapp".
Definition DEFAULT_COMMIT_MESSAGE : jsstring :=
  lit "Initial commit from create-stx-dapp".
Definition MAX_PROJECT_NAME_LENGTH : nat := 214.
Definition RESERVED_NAMES : list jsstring :=
  [lit "node_modules"; lit "favicon.ico"; lit "package.json";
   lit "index.js"; lit "index.ts"].
Definition NODEJS_URL : jsstring := lit "https://nodejs.org/".
Definition GIT_URL : jsstring := lit "https://git-scm.com/".
End CONFIG.

(** ** src/utils.ts *)

Module Utils.

(** What a [throw] can carry: a [CLIError] (built below with the defaults
    of its constructor), another [Error], or a value that is no [Error]. *)
Inductive Thrown :=
| CLIError (message code : jsstring) (exitCode : Z)
| JsError
| NonError.

Definition GENERAL_ERROR : jsstring := lit "GENERAL_ERROR".
Definition newCLIError (message : jsstring) (code : option jsstring)
    (exitCode : option Z) : Thrown :=
  CLIError message
    (match code with Some c => c | None => GENERAL_ERROR end)
    (match exitCode with Some c => c | None => 1%Z end).

(** The character class [[a-z0-9-_]] and the units [[-_]]. *)
Definition is_safe (c : code_unit) : bool :=
  (is_lower c || is_digit c || is_hyphen c || is_underscore c)%bool.
Definition is_sep (c : code_unit) : bool :=
  (is_hyphen c || is_underscore c)%bool.

(** [/[^a-z0-9-_]/g]: one unit outside the class. *)
Definition m_unsafe : matcher := fun _ s =>
  match s with
  | c :: _ => if is_safe c then 0 else 1
  | [] => 0
  end.

(** [/^[-_]+|[-_]+$/g]: at the start of the input, a greedy run of [[-_]];
    failing that, a run of [[-_]] that reaches the end of the input. *)
Definition m_edges : matcher := fun at_start s =>
  let n := run_length is_sep s in
  if (at_start && Nat.ltb 0 n)%bool then n
  else if Nat.eqb n (List.length s) then n else 0.

(** [/[-_]+/g]: a greedy run of [[-_]]. *)
Definition m_runs : matcher := fun _ s => run_length is_sep s.

Section Sanitize.
Context {host : Host}.

Definition sanitizeProjectName (name : jsstring) : jsstring :=
  replace_all m_runs [hyphen]
    (replace_all m_edges []
       (replace_all m_unsafe [hyphen] (toLowerCase name))).
End Sanitize.

End Utils.

Import Utils.

(** ** The program monad

    A computation reads the lines that will arrive on standard input and
    yields its outcome, the actions it performed in order, and the lines it
    left unread.  [Exit] is [process.exit], [Throw] an exception in flight,
    [Pending] a [rl.question] whose answer never arrives. *)

Module Prog.

Inductive Level := Info | Success | Error | Warning | Dim.

(** Values produced by [JSON.parse] and updated in place by the program.
    An object lists its own properties in enumeration order; an array may
    carry own properties besides its items ([JSON.stringify] omits them). *)
#[local] Unset Elimination Schemes.
Inductive jsvalue :=
| VNull
| VBool (b : bool)
| VNum (x : float)
| VStr (s : jsstring)
| VArr (items : list jsvalue) (props : list (jsstring * jsvalue))
| VObj (props : list (jsstring * jsvalue)).
#[local] Set Elimination Schemes.

(** The two texts [cloneTemplate] returns in the [error] field of its
    result. *)
Inductive CloneError := FailedToCloneRepository | FailedToRemoveGitFolder.

(** The text of a log line, a spinner line or a prompt, by the place of the
    source that prints it; colours and icons are not modelled. *)
Inductive Message :=
| HelpText
| CheckingRequirements | RequirementsChecked
| NodeRequired | InstallNodeFrom (url : jsstring)
| GitRequired | InstallGitFrom (url : jsstring)
| NoPackageManager | InstallAPackageManager
| SkippingInvalidTemplate (name : jsstring) (reason : option jsstring)
| AvailableTemplates | CatalogEntry (index : nat) (name description : jsstring)
    (tags : option (list jsstring))
| ProvideProjectName | UsageLine | RunHelpForMore
| Reason (text : option jsstring)
| Welcome
| RemovedExistingDirectory | DirectoryExists (name : jsstring)
| RemoveAndContinue | Aborted
| SelectATemplate | MenuEntry (index : nat) (name description : jsstring)
    (tags : option (list jsstring))
| EnterChoice (n : nat) | InvalidChoice (n : nat)
| CreatingProjectWith (name : jsstring)
| CloningTemplate | FailedToClone | ClonedButGitCleanupFailed
| TemplateCloned | CloneErrorText (e : option CloneError)
| CheckRepository (url : jsstring)
| NoPackageJson | UpdatedPackageJson | FailedToUpdatePackageJson
| InstallingDependencies | Using (pm : jsstring)
| InstallingWith (pm : jsstring) | FailedToInstall | InstallManuallyLater
| DependenciesInstalled
| InitializingGit | FailedToInitializeGit | FailedAt (command : jsstring)
| GitInitialized
| SuccessBanner | NextSteps | ChangeDirectory (name : jsstring)
| RunLine (line : jsstring) | DependenciesFailedNote
| TemplateUsed (name : jsstring) | HappyBuilding
| ErrorMessage (text : jsstring) | ErrorCode (code : jsstring)
| UnexpectedError | ReportIssue | UnknownError.

Inductive Action :=
| Log (lvl : Level) (m : Message)
| SpinnerStart (m : Message)
| SpinnerStop (m : Message) (error : bool)
| Exec (command : jsstring) (cwd : option jsstring)
| RmSync (path : jsstring)
| WriteFile (path : jsstring) (content : jsvalue)
| Question (prompt : Message).

Inductive Outcome (A : Type) :=
| Ret (a : A)
| Exit (code : Z)
| Throw (e : Thrown)
| Pending.
Arguments Ret {A} a.
Arguments Exit {A} code.
Arguments Throw {A} e.
Arguments Pending {A}.

Record Run (A : Type) := mkRun {
  outcome : Outcome A;
  actions : list Action;
  stdin_left : list jsstring
}.

Definition M (A : Type) := list jsstring -> Run A.

Definition ret {A} (a : A) : M A := fun i => mkRun (Ret a) [] i.

Definition bind {A B} (m : M A) (f : A -> M B) : M B := fun i =>
  let r := m i in
  match outcome r with
  | Ret a =>
      let r' := f a (stdin_left r) in
      mkRun (outcome r') (actions r ++ actions r') (stdin_left r')
  | Exit c => mkRun (Exit c) (actions r) (stdin_left r)
  | Throw e => mkRun (Throw e) (actions r) (stdin_left r)
  | Pending => mkRun Pending (actions r) (stdin_left r)
  end.

Definition emit (a : Action) : M unit := fun i => mkRun (Ret tt) [a] i.
Definition exit {A} (code : Z) : M A := fun i => mkRun (Exit code) [] i.
Definition throw {A} (e : Thrown) : M A := fun i => mkRun (Throw e) [] i.

(** [try { body } catch (e) { handler(e) }]. *)
Definition try_catch {A} (body : M A) (handler : Thrown -> M A) : M A :=
  fun i =>
    let r := body i in
    match outcome r with
    | Throw e =>
        let r' := handler e (stdin_left r) in
        mkRun (outcome r') (actions r ++ actions r') (stdin_left r')
    | _ => r
    end.

(** [rl.question]: the prompt is written and the next line of input is the
    answer. *)
Definition question (prompt : Message) : M jsstring := fun i =>
  match i with
  | answer :: rest => mkRun (Ret answer) [Question prompt] rest
  | [] => mkRun Pending [Question prompt] []
  end.

(** The exit status of the process: [process.exit(c)] gives [c], a [main]
    that returns lets the process end with status 0. *)
Definition exit_code {A} (r : Run A) : option Z :=
  match outcome r with
  | Ret _ => Some 0%Z
  | Exit c => Some c
  | Throw _ => None
  | Pending => None
  end.

Declare Scope prog_scope.
Delimit Scope prog_scope with prog.
Notation "x <- m ;; k" := (bind m (fun x => k))
  (at level 61, m at next level, right associativity) : prog_scope.
Notation "m ;; k" := (bind m (fun _ => k))
  (at level 61, right associativity) : prog_scope.

(** The static methods of [Logger]. *)
Module Logger.
Definition info (m : Message) : M unit := emit (Log Info m).
Definition success (m : Message) : M unit := emit (Log Success m).
Definition error (m : Message) : M unit := emit (Log Error m).
Definition warning (m : Message) : M unit := emit (Log Warning m).
Definition dim (m : Message) : M unit := emit (Log Dim m).
End Logger.

End Prog.

Import Prog.
Local Open Scope prog_scope.

(** ** src/index.ts *)

Module Index.

Record TemplateRequirements := {
  req_node : option jsstring;
  req_git : option bool
}.

Record Template := {
  name : jsstring;
  description : jsstring;
  repoUrl : jsstring;
  tags : option (list jsstring);
  requirements : option TemplateRequirements
}.

Record PackageManager := {
  pm_name : jsstring;
  installCommand : jsstring;
  runCommand : jsstring;
  available : bool
}.

Record Validation := {
  valid : bool;
  reason : option jsstring
}.

Definition is_empty (s : jsstring) : bool :=
  match s with [] => true | _ :: _ => false end.

(** The class [[a-z0-9-_]] under the [i] flag.  Without the [u] flag a unit
    from 128 on is never identified with an ASCII letter, so the class holds
    the ASCII letters of both cases, the digits, [-] and [_]. *)
Definition is_name_unit (c : code_unit) : bool :=
  (is_lower c || is_upper c || is_digit c || is_hyphen c
   || is_underscore c)%bool.

(** [/^[a-z0-9-_]+$/i.test(s)]: the pattern is anchored at both ends, so it
    matches when the greedy run from the start is not empty and reaches the
    end of the input. *)
Definition name_pattern_test (s : jsstring) : bool :=
  let n := run_length is_name_unit s in
  (Nat.ltb 0 n && Nat.eqb n (List.length s))%bool.

Definition invalid (why : string) : Validation :=
  {| valid := false; reason := Some (lit why) |}.

Section Validators.
Context {host : Host}.

Definition isValidProjectName (name : jsstring) : Validation :=
  if (is_empty name || Nat.eqb (List.length (trim name)) 0)%bool then
    invalid "Project name cannot be empty"
  else if Nat.ltb CONFIG.MAX_PROJECT_NAME_LENGTH (List.length name) then
    invalid "Project name must be less than 214 characters"
  else if (startsWith name (lit ".") || startsWith name (lit "_"))%bool then
    invalid "Project name cannot start with . or _"
  else if negb (name_pattern_test name) then
    invalid "Project name can only contain letters, numbers, hyphens, and underscores"
  else if includes CONFIG.RESERVED_NAMES (toLowerCase name) then
    invalid "Project name cannot be a reserved name"
  else {| valid := true; reason := None |}.

Definition validateTemplate (template : Template) : Validation :=
  if (is_empty (name template) || is_empty (description template)
      || is_empty (repoUrl template))%bool then
    invalid "Template must have name, description, and repoUrl"
  else if negb (url_parses (repoUrl template)) then
    invalid "Template repoUrl must be a valid URL"
  else {| valid := true; reason := None |}.
End Validators.

(** The outside world.  Each field answers one kind of synchronous call:
    whether [execSync] of a command in a working directory returns,
    whether a path exists, whether [rmSync] and [writeFileSync] return, and
    what [JSON.parse(readFileSync(path))] yields ([None] when either
    throws).  One run asks each question at most once for a given command
    or path, so the answers need not depend on what happened before. *)
Record Env := {
  cwd : jsstring;
  exec_ok : jsstring -> option jsstring -> bool;
  exists_sync : jsstring -> bool;
  rm_ok : jsstring -> bool;
  read_json : jsstring -> option jsvalue;
  write_ok : jsstring -> bool
}.

(** [path.join] and [path.resolve] of an absolute, normalised directory with
    segments that hold no separator and no dot segment. *)
Definition path_join (dir segment : jsstring) : jsstring :=
  match rev dir with
  | 47%N :: _ => dir ++ segment
  | _ => dir ++ lit "/" ++ segment
  end.

(** *** Property access on parsed JSON *)

Fixpoint assoc_get (k : jsstring) (props : list (jsstring * jsvalue))
    : option jsvalue :=
  match props with
  | [] => None
  | (k', v) :: rest => if str_eqb k k' then Some v else assoc_get k rest
  end.

Fixpoint assoc_has (k : jsstring) (props : list (jsstring * jsvalue)) : bool :=
  match props with
  | [] => false
  | (k', _) :: rest => (str_eqb k k' || assoc_has k rest)%bool
  end.

Fixpoint assoc_replace (k : jsstring) (v : jsvalue)
    (props : list (jsstring * jsvalue)) : list (jsstring * jsvalue) :=
  match props with
  | [] => []
  | (k', v') :: rest =>
      if str_eqb k k' then (k', v) :: rest
      else (k', v') :: assoc_replace k v rest
  end.

(** Assignment keeps the place of a property that exists and appends a new
    one. *)
Definition assoc_set (k : jsstring) (v : jsvalue)
    (props : list (jsstring * jsvalue)) : list (jsstring * jsvalue) :=
  if assoc_has k props then assoc_replace k v props else props ++ [(k, v)].

(** [delete] removes the property; an object holds a key at most once. *)
Fixpoint assoc_delete (k : jsstring) (props : list (jsstring * jsvalue))
    : list (jsstring * jsvalue) :=
  match props with
  | [] => []
  | (k', v') :: rest =>
      if str_eqb k k' then assoc_delete k rest
      else (k', v') :: assoc_delete k rest
  end.

(** [v.k] for a key that is neither an array index nor a built-in property;
    [None] is [undefined].  Not used on [null]. *)
Definition get_prop (v : jsvalue) (k : jsstring) : option jsvalue :=
  match v with
  | VObj props => assoc_get k props
  | VArr _ props => assoc_get k props
  | _ => None
  end.

(** [v.k = x] in strict mode (the file is an ES module): a [TypeError] on
    [null] and on a primitive. *)
Definition set_prop (v : jsvalue) (k : jsstring) (x : jsvalue)
    : option jsvalue :=
  match v with
  | VObj props => Some (VObj (assoc_set k x props))
  | VArr items props => Some (VArr items (assoc_set k x props))
  | _ => None
  end.

(** The object held by property [k] of [v] after it was mutated into [x]. *)
Definition replace_prop (v : jsvalue) (k : jsstring) (x : jsvalue) : jsvalue :=
  match v with
  | VObj props => VObj (assoc_replace k x props)
  | VArr items props => VArr items (assoc_replace k x props)
  | _ => v
  end.

Definition delete_prop (v : jsvalue) (k : jsstring) : jsvalue :=
  match v with
  | VObj props => VObj (assoc_delete k props)
  | VArr items props => VArr items (assoc_delete k props)
  | _ => v
  end.

Definition truthy (v : jsvalue) : bool :=
  match v with
  | VNull => false
  | VBool b => b
  | VNum x => negb (PrimFloat.eqb x 0%float || PrimFloat.is_nan x)
  | VStr s => negb (is_empty s)
  | VArr _ _ => true
  | VObj _ => true
  end.

Definition truthy_opt (v : option jsvalue) : bool :=
  match v with
  | Some x => truthy x
  | None => false
  end.

Record Requirements := {
  node : bool;
  git : bool;
  packageManager : option PackageManager
}.

Record CloneResult := {
  success : bool;
  error : option CloneError
}.

Record Flags := {
  flag_help : bool;
  flag_list : bool;
  flag_force : bool
}.

(** The one entry of [BUILT_IN_TEMPLATES]. *)
Definition vite_react_tailwind : Template :=
  {| name := lit "Vite + React + Tailwind CSS";
     description := lit "Modern stacks starter dapp with Vite, React 19, TypeScript, and Tailwind CSS";
     repoUrl := lit "https://github.com/leeroyanesu/vite-stacks-dapp-template.git";
     tags := Some [lit "vite"; lit "react"; lit "tailwind";
                   lit "typescript"; lit "recommended"];
     requirements := Some {| req_node := Some (lit ">=22.0.0");
                             req_git := Some true |} |}.

Definition BUILT_IN_TEMPLATES : list Template := [vite_react_tailwind].

(** The candidates of [checkRequirements], in the order of the source. *)
Definition packageManagers : list PackageManager :=
  [ {| pm_name := lit "bun"; installCommand := lit "install";
       runCommand := []; available := false |};
    {| pm_name := lit "pnpm"; installCommand := lit "install";
       runCommand := []; available := false |};
    {| pm_name := lit "yarn"; installCommand := lit "install";
       runCommand := []; available := false |};
    {| pm_name := lit "npm"; installCommand := lit "install";
       runCommand := lit "run "; available := false |} ].

Definition set_available (pm : PackageManager) (b : bool) : PackageManager :=
  {| pm_name := pm_name pm; installCommand := installCommand pm;
     runCommand := runCommand pm; available := b |}.

Definition version_probe (tool : jsstring) : jsstring :=
  tool ++ lit " --version".

Definition clone_command (repoUrl projectName : jsstring) : jsstring :=
  lit "git clone --depth 1 " ++ dquote ++ repoUrl ++ dquote ++ lit " "
  ++ dquote ++ projectName ++ dquote.

Definition git_commands : list jsstring :=
  [ lit "git init"; lit "git add .";
    lit "git commit -m " ++ dquote ++ CONFIG.DEFAULT_COMMIT_MESSAGE ++ dquote ].

(** The updates [updatePackageJson] makes to the parsed manifest between
    [JSON.parse] and [JSON.stringify]; [None] is the [TypeError] of an
    assignment to [null] or to a primitive. *)
Definition update_manifest (packageJson : jsvalue) (projectName : jsstring)
    : option jsvalue :=
  match set_prop packageJson (lit "name") (VStr projectName) with
  | None => None
  | Some named =>
      match set_prop named (lit "version") (VStr (lit "0.1.0")) with
      | None => None
      | Some versioned =>
          match get_prop versioned (lit "scripts") with
          | Some scripts =>
              if (truthy scripts
                  && truthy_opt (get_prop scripts (lit "postinstall")))%bool
              then
                Some (replace_prop versioned (lit "scripts")
                        (delete_prop scripts (lit "postinstall")))
              else Some versioned
          | None => Some versioned
          end
      end
  end.

Section Program.
Context {host : Host} (env : Env).

(** [execCommand]: the command is run; only whether it succeeded is used
    by the callers. *)
Definition execCommand (command : jsstring) (dir : option jsstring)
    (silent : bool) : M bool :=
  emit (Exec command dir) ;;
  ret (exec_ok env command dir).

(** The [for (const pm of packageManagers)] loop: every candidate is
    probed and its [available] field is set. *)
Fixpoint probe_all (pms : list PackageManager) : M (list PackageManager) :=
  match pms with
  | [] => ret []
  | pm :: rest =>
      check <- execCommand (version_probe (pm_name pm)) None true ;;
      rest' <- probe_all rest ;;
      ret (set_available pm check :: rest')
  end.

Definition checkRequirements : M Requirements :=
  emit (SpinnerStart CheckingRequirements) ;;
  nodeCheck <- execCommand (lit "node --version") None true ;;
  gitCheck <- execCommand (lit "git --version") None true ;;
  probed <- probe_all packageManagers ;;
  let availablePackageManager := find available probed in
  emit (SpinnerStop RequirementsChecked false) ;;
  ret {| node := nodeCheck; git := gitCheck;
         packageManager := availablePackageManager |}.

(** The [filter] callback of [loadTemplates], entry by entry. *)
Fixpoint filter_valid (registry : list Template) : M (list Template) :=
  match registry with
  | [] => ret []
  | template :: rest =>
      let validation := validateTemplate template in
      if valid validation then
        rest' <- filter_valid rest ;;
        ret (template :: rest')
      else
        Logger.warning
          (SkippingInvalidTemplate (name template) (reason validation)) ;;
        filter_valid rest
  end.

Definition loadTemplatesFrom (registry : list Template)
    : M (list Template) :=
  validTemplates <- filter_valid registry ;;
  if Nat.eqb (List.length validTemplates) 0 then
    throw (newCLIError (lit "No valid templates found")
             (Some (lit "NO_TEMPLATES")) None)
  else ret validTemplates.

Definition loadTemplates : M (list Template) :=
  loadTemplatesFrom BUILT_IN_TEMPLATES.

Definition cloneTemplate (repoUrl projectName : jsstring) : M CloneResult :=
  emit (SpinnerStart CloningTemplate) ;;
  result <- execCommand (clone_command repoUrl projectName) None true ;;
  if negb result then
    emit (SpinnerStop FailedToClone true) ;;
    ret {| success := false; error := Some FailedToCloneRepository |}
  else
    let gitPath := path_join (path_join (cwd env) projectName) (lit ".git") in
    removed <-
      (if exists_sync env gitPath then
         emit (RmSync gitPath) ;;
         ret (rm_ok env gitPath)
       else ret true) ;;
    if negb removed then
      emit (SpinnerStop ClonedButGitCleanupFailed true) ;;
      ret {| success := false; error := Some FailedToRemoveGitFolder |}
    else
      emit (SpinnerStop TemplateCloned false) ;;
      ret {| success := true; error := None |}.

(** The body of the [try] block of [updatePackageJson]: the file is read
    and parsed, updated and written back. *)
Definition rewrite_manifest (packageJsonPath projectName : jsstring)
    : M bool :=
  match read_json env packageJsonPath with
  | None => throw JsError
  | Some packageJson =>
      match update_manifest packageJson projectName with
      | None => throw JsError
      | Some updated =>
          emit (WriteFile packageJsonPath updated) ;;
          if write_ok env packageJsonPath then
            Logger.success UpdatedPackageJson ;;
            ret true
          else throw JsError
      end
  end.

Definition updatePackageJson (projectPath projectName : jsstring) : M bool :=
  let packageJsonPath := path_join projectPath (lit "package.json") in
  if negb (exists_sync env packageJsonPath) then
    Logger.warning NoPackageJson ;;
    ret false
  else
    try_catch (rewrite_manifest packageJsonPath projectName)
      (fun _ => Logger.error FailedToUpdatePackageJson ;; ret false).

Definition installDependencies (projectPath : jsstring)
    (packageManager : PackageManager) : M bool :=
  Logger.info InstallingDependencies ;;
  Logger.dim (Using (pm_name packageManager)) ;;
  emit (SpinnerStart (InstallingWith (pm_name packageManager))) ;;
  result <- execCommand
              (pm_name packageManager ++ lit " "
               ++ installCommand packageManager)
              (Some projectPath) true ;;
  if negb result then
    emit (SpinnerStop FailedToInstall true) ;;
    Logger.warning InstallManuallyLater ;;
    ret false
  else
    emit (SpinnerStop DependenciesInstalled false) ;;
    ret true.

(** The [for (const command of commands)] loop of
    [initializeGitRepository]; [false] is its early [return false]. *)
Fixpoint run_commands (projectPath : jsstring) (commands : list jsstring)
    : M bool :=
  match commands with
  | [] => ret true
  | command :: rest =>
      result <- execCommand command (Some projectPath) true ;;
      if negb result then
        emit (SpinnerStop FailedToInitializeGit true) ;;
        Logger.warning (FailedAt command) ;;
        ret false
      else run_commands projectPath rest
  end.

Definition initializeGitRepository (projectPath projectName : jsstring)
    : M bool :=
  emit (SpinnerStart InitializingGit) ;;
  completed <- run_commands projectPath git_commands ;;
  if completed then
    emit (SpinnerStop GitInitialized false) ;;
    ret true
  else ret false.

(** [templates.forEach((template, index) => ...)] printing the menu. *)
Fixpoint print_menu (index : nat) (templates : list Template) : M unit :=
  match templates with
  | [] => ret tt
  | template :: rest =>
      Logger.info (MenuEntry (index + 1) (name template)
                     (description template) (tags template)) ;;
      print_menu (S index) rest
  end.

(** The guard [choice >= 1 && choice <= templates.length] and the element
    [templates[choice - 1]] it protects; [None] when the guard fails,
    which it does on [NaN]. *)
Definition pick (templates : list Template) (choice : option Z)
    : option Template :=
  match choice with
  | Some c =>
      if ((1 <=? c)%Z && (c <=? Z.of_nat (List.length templates))%Z)%bool
      then nth_error templates (Z.to_nat (c - 1))
      else None
  | None => None
  end.

(** The [while (true)] loop of [selectTemplate]: one question per round,
    so the rounds follow the lines of input; when they run out the
    question stays unanswered. *)
Fixpoint select_loop (templates : list Template) (i : list jsstring)
    : Run Template :=
  let prompt := Question (EnterChoice (List.length templates)) in
  match i with
  | [] => mkRun Pending [prompt] []
  | answer :: rest =>
      let choice := parseInt10 (trim answer) in
      match pick templates choice with
      | Some template => mkRun (Ret template) [prompt] rest
      | None =>
          let r := select_loop templates rest in
          mkRun (outcome r)
            (prompt
             :: Log Error (InvalidChoice (List.length templates))
             :: actions r)
            (stdin_left r)
      end
  end.

Definition selectTemplate (templates : list Template) : M Template :=
  Logger.info SelectATemplate ;;
  print_menu 0 templates ;;
  select_loop templates.

Definition affirmative (answer : jsstring) : bool :=
  (str_eqb (trim (toLowerCase answer)) (lit "y")
   || str_eqb (trim (toLowerCase answer)) (lit "yes"))%bool.

Definition confirmAction (prompt : Message) : M bool :=
  answer <- question prompt ;;
  ret (affirmative answer).

Definition parseFlags (args : list jsstring) : Flags :=
  {| flag_help := (includes args (lit "--help") || includes args (lit "-h"))%bool;
     flag_list := (includes args (lit "--list") || includes args (lit "-l"))%bool;
     flag_force := (includes args (lit "--force") || includes args (lit "-f"))%bool |}.

(** [templates.forEach] printing the catalog of [--list]. *)
Fixpoint print_catalog (index : nat) (templates : list Template) : M unit :=
  match templates with
  | [] => ret tt
  | template :: rest =>
      Logger.info (CatalogEntry (index + 1) (name template)
                     (description template) (tags template)) ;;
      print_catalog (S index) rest
  end.

(** [fs.rmSync(path, { recursive: true, force: true })] outside any
    [try]: a failure is an exception in flight. *)
Definition rmSync (path : jsstring) : M unit :=
  emit (RmSync path) ;;
  if rm_ok env path then ret tt else throw JsError.

(** What [main] holds once the project name has been accepted. *)
Record Preflight := {
  pf_flags : Flags;
  pf_packageManager : PackageManager;
  pf_templates : list Template;
  pf_projectName : jsstring;
  pf_projectPath : jsstring
}.

Definition missing_name {A} : M A :=
  Logger.error ProvideProjectName ;;
  Logger.info UsageLine ;;
  Logger.dim RunHelpForMore ;;
  exit 1.

(** [main], from the parsing of the flags to the computation of
    [projectPath]. *)
Definition preflight (args : list jsstring) : M Preflight :=
  let flags := parseFlags args in
  if flag_help flags then
    Logger.info HelpText ;;
    exit 0
  else
    requirements <- checkRequirements ;;
    if negb (node requirements) then
      Logger.error NodeRequired ;;
      Logger.warning (InstallNodeFrom CONFIG.NODEJS_URL) ;;
      exit 1
    else if negb (git requirements) then
      Logger.error GitRequired ;;
      Logger.warning (InstallGitFrom CONFIG.GIT_URL) ;;
      exit 1
    else
      match packageManager requirements with
      | None =>
          Logger.error NoPackageManager ;;
          Logger.warning InstallAPackageManager ;;
          exit 1
      | Some pm =>
          templates <- loadTemplates ;;
          if flag_list flags then
            Logger.info AvailableTemplates ;;
            print_catalog 0 templates ;;
            exit 0
          else
            match hd_error
                    (filter (fun arg => negb (startsWith arg (lit "-")))
                       args) with
            | None => missing_name
            | Some projectName =>
                if is_empty projectName then missing_name
                else
                  let nameValidation := isValidProjectName projectName in
                  if negb (valid nameValidation) then
                    Logger.error (Reason (reason nameValidation)) ;;
                    exit 1
                  else
                    Logger.info Welcome ;;
                    ret {| pf_flags := flags;
                           pf_packageManager := pm;
                           pf_templates := templates;
                           pf_projectName := projectName;
                           pf_projectPath :=
                             path_join (cwd env) projectName |}
            end
      end.

(** [main], the block under "Check if directory already exists". *)
Definition resolveCollision (flags : Flags)
    (projectName projectPath : jsstring) : M unit :=
  if exists_sync env projectPath then
    if flag_force flags then
      rmSync projectPath ;;
      Logger.success RemovedExistingDirectory
    else
      Logger.error (DirectoryExists projectName) ;;
      shouldContinue <- confirmAction RemoveAndContinue ;;
      if shouldContinue then
        rmSync projectPath ;;
        Logger.success RemovedExistingDirectory
      else
        Logger.error Aborted ;;
        exit 1
  else ret tt.

(** [main], the summary printed after the last step. *)
Definition summary (projectName : jsstring) (pm : PackageManager)
    (selectedTemplate : Template) (installSuccess : bool) : M unit :=
  Logger.info SuccessBanner ;;
  Logger.info NextSteps ;;
  Logger.info (ChangeDirectory projectName) ;;
  Logger.info (RunLine (pm_name pm ++ lit " " ++ runCommand pm ++ lit "dev")) ;;
  (if negb installSuccess then
     Logger.warning DependenciesFailedNote ;;
     Logger.info (ChangeDirectory projectName) ;;
     Logger.info (RunLine (pm_name pm ++ lit " " ++ installCommand pm))
   else ret tt) ;;
  Logger.info (TemplateUsed (name selectedTemplate)) ;;
  Logger.info HappyBuilding.

(** [main], from "Clone template" to its end. *)
Definition scaffold (projectName projectPath : jsstring)
    (pm : PackageManager) (selectedTemplate : Template) : M unit :=
  cloneResult <- cloneTemplate (repoUrl selectedTemplate) projectName ;;
  if negb (success cloneResult) then
    Logger.error (CloneErrorText (error cloneResult)) ;;
    Logger.warning (CheckRepository (repoUrl selectedTemplate)) ;;
    exit 1
  else
    updatePackageJson projectPath projectName ;;
    installSuccess <- installDependencies projectPath pm ;;
    initializeGitRepository projectPath projectName ;;
    summary projectName pm selectedTemplate installSuccess.

(** [main], from the collision check to the line that announces the
    chosen template; it yields what the rest of [main] uses. *)
Definition select_project (args : list jsstring)
    : M (Preflight * Template) :=
  pf <- preflight args ;;
  resolveCollision (pf_flags pf) (pf_projectName pf) (pf_projectPath pf) ;;
  selectedTemplate <- selectTemplate (pf_templates pf) ;;
  Logger.info (CreatingProjectWith (name selectedTemplate)) ;;
  ret (pf, selectedTemplate).

Definition main (args : list jsstring) : M unit :=
  ctx <- select_project args ;;
  scaffold (pf_projectName (fst ctx)) (pf_projectPath (fst ctx))
    (pf_packageManager (fst ctx)) (snd ctx).

(** [handleError] of src/utils.ts. *)
Definition handleError (e : Thrown) : M unit :=
  match e with
  | CLIError message code exitCode =>
      Logger.error (ErrorMessage message) ;;
      (if negb (str_eqb code GENERAL_ERROR) then Logger.dim (ErrorCode code)
       else ret tt) ;;
      exit exitCode
  | JsError =>
      Logger.error UnexpectedError ;;
      Logger.dim ReportIssue ;;
      exit 1
  | NonError =>
      Logger.error UnknownError ;;
      exit 1
  end.

(** The last statement of the file: [main().catch(handleError)]. *)
Definition cli (args : list jsstring) : M unit :=
  try_catch (main args) handleError.
End Program.

End Index.

Import Index.

(** ** src/utils.ts, the other functions *)

Module UtilsMore.

(** The decimal numeral of a natural number, as [String(n)] and a template
    literal write an integer; the numeral of 0 is [0]. *)
Fixpoint uint_units (d : Decimal.uint) : jsstring :=
  match d with
  | Decimal.Nil => []
  | Decimal.D0 l => 48%N :: uint_units l
  | Decimal.D1 l => 49%N :: uint_units l
  | Decimal.D2 l => 50%N :: uint_units l
  | Decimal.D3 l => 51%N :: uint_units l
  | Decimal.D4 l => 52%N :: uint_units l
  | Decimal.D5 l => 53%N :: uint_units l
  | Decimal.D6 l => 54%N :: uint_units l
  | Decimal.D7 l => 55%N :: uint_units l
  | Decimal.D8 l => 56%N :: uint_units l
  | Decimal.D9 l => 57%N :: uint_units l
  end.

(** [String(z)] for an integer [z]; JavaScript writes an integer this way
    as long as its absolute value is below 10^21. *)
Definition number_to_string (z : Z) : jsstring :=
  if (z <? 0)%Z then 45%N :: uint_units (N.to_uint (Z.abs_N z))
  else uint_units (N.to_uint (Z.to_N z)).


(** The value the promise of [isUrlAccessible] resolves to: the URL is only
    parsed, no request is made. *)
Definition isUrlAccessible {host : Host} (url : jsstring) : bool :=
  url_parses url.

End UtilsMore.

Import UtilsMore.

(** ** What the terminal shows

    The text level of src/utils.ts [Logger], of src/config.ts [isCI] and
    [isInteractive], and of src/index.ts [Spinner].  The program model
    above records which message is logged; here the characters written
    are modelled, for any message text. *)

Module Terminal.

(** The part of [process] the three read: [process.stdout.isTTY] ([true]
    or [undefined]) and five variables of [process.env]. *)
Record Process := mkProcess {
  isTTY : bool;
  NO_COLOR : option jsstring;
  CI : option jsstring;
  CONTINUOUS_INTEGRATION : option jsstring;
  BUILD_NUMBER : option jsstring;
  RUN_ID : option jsstring
}.

(** Truthiness of a string that may be [undefined]. *)
Definition truthy_text (v : option jsstring) : bool :=
  match v with
  | Some (_ :: _) => true
  | _ => false
  end.

Definition isCI (p : Process) : bool :=
  truthy_text (CI p) || truthy_text (CONTINUOUS_INTEGRATION p)
  || truthy_text (BUILD_NUMBER p) || truthy_text (RUN_ID p).

Definition isInteractive (p : Process) : bool :=
  isTTY p && negb (isCI p).

(** A write to the terminal: [console.log], which ends the line, or
    [process.stdout.write], which does not. *)
Inductive Write :=
| ConsoleLog (line : jsstring)
| StdoutWrite (chunk : jsstring).

(** An escape sequence [\x1b...]. *)
Definition esc (code : string) : jsstring := 27%N :: lit code.

Definition reset : jsstring := esc "[0m".
Definition red : jsstring := esc "[31m".
Definition green : jsstring := esc "[32m".
Definition yellow : jsstring := esc "[33m".
Definition cyan : jsstring := esc "[36m".
Definition grey : jsstring := esc "[90m".

(** The icons, in UTF-16 code units. *)
Definition check_mark : jsstring := [9989%N].
Definition cross_mark : jsstring := [10060%N].
Definition warning_sign : jsstring := [9888%N; 65039%N].

Module Logger.

Definition shouldUseColors (p : Process) : bool :=
  isTTY p && negb (truthy_text (NO_COLOR p)).

Definition info (p : Process) (message : jsstring)
    (color : option jsstring) : Write :=
  let useColors := shouldUseColors p in
  if useColors && truthy_text color then
    ConsoleLog (match color with Some c => c | None => [] end
                ++ message ++ reset)
  else ConsoleLog message.

Definition success (p : Process) (message : jsstring) : Write :=
  info p (check_mark ++ lit " " ++ message) (Some green).

Definition error (p : Process) (message : jsstring) : Write :=
  info p (cross_mark ++ lit " " ++ message) (Some red).

Definition warning (p : Process) (message : jsstring) : Write :=
  info p (warning_sign ++ lit "  " ++ message) (Some yellow).

Definition dim (p : Process) (message : jsstring) : Write :=
  info p message (Some grey).

End Logger.

(** [CONFIG.SPINNER_FRAMES]: ten braille patterns. *)
Definition SPINNER_FRAMES : list jsstring :=
  [ [10251%N]; [10265%N]; [10297%N]; [10296%N]; [10300%N];
    [10292%N]; [10278%N]; [10279%N]; [10247%N]; [10255%N] ].

(** [frames[i]] inside a template literal: an index out of range gives
    [undefined], printed as such. *)
Definition frame_at (i : nat) : jsstring :=
  match nth_error SPINNER_FRAMES i with
  | Some f => f
  | None => lit "undefined"
  end.

Definition frame_chunk (i : nat) (text : jsstring) : jsstring :=
  cyan ++ frame_at i ++ lit " " ++ text ++ reset.

Definition carriage_return : jsstring := [13%N].

(** A [Spinner] and the timers it has set: [interval] is the handle kept
    in [this.interval]; [timers] are the running timers, each with the
    text its callback closes over; [next_handle] numbers the handles. *)
Record Spinner := mkSpinner {
  interval : option nat;
  currentFrame : nat;
  timers : list (nat * jsstring);
  next_handle : nat
}.

Definition new_Spinner : Spinner := mkSpinner None 0 [] 0.

Definition start (p : Process) (text : jsstring) (s : Spinner)
    : Spinner * list Write :=
  if negb (isInteractive p) then (s, [Logger.info p text None])
  else
    let h := next_handle s in
    (mkSpinner (Some h) (currentFrame s) ((h, text) :: timers s) (S h),
     [StdoutWrite (frame_chunk 0 text)]).

Fixpoint timer_text (h : nat) (ts : list (nat * jsstring))
    : option jsstring :=
  match ts with
  | [] => None
  | (h', text) :: rest =>
      if Nat.eqb h h' then Some text else timer_text h rest
  end.

(** The callback of timer [h], run once; a cleared timer does not run. *)
Definition fire (h : nat) (s : Spinner) : Spinner * list Write :=
  match timer_text h (timers s) with
  | None => (s, [])
  | Some text =>
      let frame := Nat.modulo (currentFrame s + 1)
                              (List.length SPINNER_FRAMES) in
      (mkSpinner (interval s) frame (timers s) (next_handle s),
       [StdoutWrite carriage_return; StdoutWrite (frame_chunk frame text)])
  end.

Definition clearInterval (h : nat) (ts : list (nat * jsstring))
    : list (nat * jsstring) :=
  filter (fun t => negb (Nat.eqb h (fst t))) ts.

Definition stop (p : Process) (successText : option jsstring)
    (error : bool) (s : Spinner) : Spinner * list Write :=
  let s' :=
    match interval s with
    | Some h =>
        mkSpinner None (currentFrame s) (clearInterval h (timers s))
                  (next_handle s)
    | None => s
    end in
  if negb (isInteractive p) then
    (s',
     match successText with
     | Some (c :: t) =>
         [if error then Logger.error p (c :: t)
          else Logger.success p (c :: t)]
     | _ => []
     end)
  else
    (s',
     StdoutWrite carriage_return ::
     match successText with
     | Some (c :: t) =>
         let icon := if error then cross_mark else check_mark in
         let color := if error then red else green in
         [ConsoleLog (color ++ icon ++ lit " " ++ (c :: t) ++ reset)]
     | _ => []
     end).

End Terminal.

(** ** Vocabulary of the statements *)

Module Facts.

(** Whether the first, respectively the last, unit of a string satisfies
    [p]; [false] on the empty string. *)
Definition first_is (p : code_unit -> bool) (s : jsstring) : bool :=
  match s with
  | c :: _ => p c
  | [] => false
  end.

Fixpoint last_is (p : code_unit -> bool) (s : jsstring) : bool :=
  match s with
  | [] => false
  | c :: s' =>
      match s' with
      | [] => p c
      | _ :: _ => last_is p s'
      end
  end.

(** No hyphen is followed by a hyphen. *)
Fixpoint no_double_hyphen (s : jsstring) : bool :=
  match s with
  | [] => true
  | c :: s' => (negb (is_hyphen c && first_is is_hyphen s') && no_double_hyphen s')%bool
  end.

(** A lowercase ASCII letter, a digit or a hyphen. *)
Definition is_slug_unit (c : code_unit) : bool :=
  (is_lower c || is_digit c || is_hyphen c)%bool.

(** What [/[^a-z0-9-_]/g] to [-] does, unit by unit. *)
Definition mask (c : code_unit) : code_unit :=
  if is_safe c then c else hyphen.

(** What [/[-_]+$/] to the empty string does: the string without its final
    run of [-] and [_]. *)
Fixpoint strip_tail (s : jsstring) : jsstring :=
  match s with
  | [] => []
  | c :: s' => if forallb is_sep s then [] else c :: strip_tail s'
  end.

(** The five ways in which [isValidProjectName] finds a name wanting. *)
Definition blank (name : jsstring) : Prop :=
  forall c, In c name -> is_whitespace c = true.
Definition too_long (name : jsstring) : Prop :=
  CONFIG.MAX_PROJECT_NAME_LENGTH < List.length name.
Definition bad_start (name : jsstring) : Prop :=
  exists c rest, name = c :: rest /\ (c = 46%N \/ c = underscore).
Definition bad_unit (name : jsstring) : Prop :=
  exists c, In c name /\ is_name_unit c = false.
Definition reserved {host : Host} (name : jsstring) : Prop :=
  In (toLowerCase name) CONFIG.RESERVED_NAMES.

(** An answer that [selectTemplate] does not accept: [parseInt] of the
    trimmed line is [NaN], or a number outside 1..length. *)
Definition rejected (templates : list Template) (answer : jsstring) : Prop :=
  parseInt10 (trim answer) = None
  \/ exists n, parseInt10 (trim answer) = Some n
               /\ ~ (1 <= n <= Z.of_nat (List.length templates))%Z.

(** The number of "Invalid choice" error lines among some actions. *)
Definition is_invalid_choice (a : Action) : bool :=
  match a with
  | Log Error (InvalidChoice _) => true
  | _ => false
  end.
Definition invalid_choices (acts : list Action) : nat :=
  List.length (filter is_invalid_choice acts).

(** Whether the version probe of a tool succeeds in an environment. *)
Definition probe_ok (env : Env) (tool : string) : bool :=
  exec_ok env (version_probe (lit tool)) None.

(** The actions of [checkRequirements]: it always runs the same six
    probes. *)
Definition requirement_probes : list Action :=
  [ SpinnerStart CheckingRequirements;
    Exec (lit "node --version") None;
    Exec (lit "git --version") None;
    Exec (version_probe (lit "bun")) None;
    Exec (version_probe (lit "pnpm")) None;
    Exec (version_probe (lit "yarn")) None;
    Exec (version_probe (lit "npm")) None;
    SpinnerStop RequirementsChecked false ].

(** The warning [loadTemplates] prints for an entry it drops. *)
Definition skip_warning {host : Host} (t : Template) : Action :=
  Log Warning
    (SkippingInvalidTemplate (name t) (reason (validateTemplate t))).

Definition passes {host : Host} (t : Template) : bool :=
  valid (validateTemplate t).

(** The error [loadTemplates] throws when nothing is left. *)
Definition no_valid_templates : Thrown :=
  CLIError (lit "No valid templates found") (lit "NO_TEMPLATES") 1.

(** *** The steps of [main] after the selection, as the specification
    describes them *)

(** Running commands in a directory one after the other up to the first
    that fails, which is then reported. *)
Fixpoint attempt (env : Env) (dir : jsstring) (commands : list jsstring)
    : list Action :=
  match commands with
  | [] => [SpinnerStop GitInitialized false]
  | c :: rest =>
      Exec c (Some dir)
      :: (if exec_ok env c (Some dir) then attempt env dir rest
          else [SpinnerStop FailedToInitializeGit true;
                Log Warning (FailedAt c)])
  end.

Definition git_init_actions (env : Env) (dir : jsstring) : list Action :=
  SpinnerStart InitializingGit :: attempt env dir git_commands.

Definition install_command (pm : PackageManager) : jsstring :=
  pm_name pm ++ lit " " ++ installCommand pm.

Definition install_actions (env : Env) (dir : jsstring) (pm : PackageManager)
    : list Action :=
  [ Log Info InstallingDependencies; Log Dim (Using (pm_name pm));
    SpinnerStart (InstallingWith (pm_name pm));
    Exec (install_command pm) (Some dir) ]
  ++ (if exec_ok env (install_command pm) (Some dir)
      then [SpinnerStop DependenciesInstalled false]
      else [SpinnerStop FailedToInstall true; Log Warning InstallManuallyLater]).

Definition summary_actions (projectName : jsstring) (pm : PackageManager)
    (t : Template) (installed : bool) : list Action :=
  [ Log Info SuccessBanner; Log Info NextSteps;
    Log Info (ChangeDirectory projectName);
    Log Info (RunLine (pm_name pm ++ lit " " ++ runCommand pm ++ lit "dev")) ]
  ++ (if installed then []
      else [ Log Warning DependenciesFailedNote;
             Log Info (ChangeDirectory projectName);
             Log Info (RunLine (install_command pm)) ])
  ++ [ Log Info (TemplateUsed (name t)); Log Info HappyBuilding ].

(** The paths [main] and [cloneTemplate] compute for a project. *)
Definition git_dir (env : Env) (projectName : jsstring) : jsstring :=
  path_join (path_join (cwd env) projectName) (lit ".git").
Definition manifest_path (projectPath : jsstring) : jsstring :=
  path_join projectPath (lit "package.json").

(** The clone step went through: the clone command succeeded and the
    [.git] directory, if there was one, was removed. *)
Definition clone_succeeds (env : Env) (t : Template) (projectName : jsstring)
    : Prop :=
  exec_ok env (clone_command (repoUrl t) projectName) None = true
  /\ (exists_sync env (git_dir env projectName) = false
      \/ rm_ok env (git_dir env projectName) = true).

(** The actions that change the file system, and those that only print. *)
Definition is_mutation (a : Action) : bool :=
  match a with
  | RmSync _ | WriteFile _ _ => true
  | Exec c _ => negb (existsb (fun tool => str_eqb c (version_probe tool))
                        [lit "node"; lit "git"; lit "bun"; lit "pnpm";
                         lit "yarn"; lit "npm"])
  | _ => false
  end.

Definition is_output (a : Action) : Prop :=
  match a with
  | Log _ _ | SpinnerStart _ | SpinnerStop _ _ => True
  | _ => False
  end.

(** The actions of a clone step that went through. *)
Definition clone_actions (env : Env) (t : Template) (projectName : jsstring)
    : list Action :=
  [ SpinnerStart CloningTemplate;
    Exec (clone_command (repoUrl t) projectName) None ]
  ++ (if exists_sync env (git_dir env projectName)
      then [RmSync (git_dir env projectName)] else [])
  ++ [ SpinnerStop TemplateCloned false ].

(** The actions of a clone step whose clone succeeded and whose removal of
    [.git] failed, with what [main] does next. *)
Definition cleanup_failure_actions (env : Env) (t : Template)
    (projectName : jsstring) : list Action :=
  [ SpinnerStart CloningTemplate;
    Exec (clone_command (repoUrl t) projectName) None;
    RmSync (git_dir env projectName);
    SpinnerStop ClonedButGitCleanupFailed true;
    Log Error (CloneErrorText (Some FailedToRemoveGitFolder));
    Log Warning (CheckRepository (repoUrl t)) ].

(** *** Sample environments

    An environment with working directory [/work], given by the paths that
    exist, the commands that fail, the paths that cannot be removed and the
    content of every manifest. *)
Definition sample_env (existing failing locked : list jsstring)
    (manifest : option jsvalue) : Env := {|
  cwd := lit "/work";
  exec_ok := fun command _ => negb (includes failing command);
  exists_sync := fun path => includes existing path;
  rm_ok := fun path => negb (includes locked path);
  read_json := fun _ => manifest;
  write_ok := fun _ => true
|}.

Definition sample_manifest : jsvalue :=
  VObj [ (lit "name", VStr (lit "vite-stacks-dapp-template"));
         (lit "version", VStr (lit "1.4.2"));
         (lit "scripts",
          VObj [ (lit "dev", VStr (lit "vite"));
                 (lit "postinstall", VStr (lit "node setup.js")) ]) ].

(** A manifest whose post-install script is the empty string. *)
Definition empty_postinstall_manifest : jsvalue :=
  VObj [ (lit "name", VStr (lit "vite-stacks-dapp-template"));
         (lit "scripts", VObj [ (lit "postinstall", VStr []) ]) ].

Definition cloned_paths : list jsstring :=
  [ lit "/work/my-dapp/.git"; lit "/work/my-dapp/package.json" ].

(** *** The steps of [main] before the selection *)

(** The first argument that is not a flag. *)
Definition project_argument (args : list jsstring) : option jsstring :=
  hd_error (filter (fun arg => negb (startsWith arg (lit "-"))) args).

(** The candidates with the outcome of their probes, and the one
    [checkRequirements] returns. *)
Definition selected_manager (env : Env) : option PackageManager :=
  find available
    (map (fun pm =>
            set_available pm (exec_ok env (version_probe (pm_name pm)) None))
       packageManagers).

(** The runtime, the version-control client and a package manager are all
    there. *)
Definition prerequisites_met (env : Env) : bool :=
  (exec_ok env (lit "node --version") None
   && exec_ok env (lit "git --version") None
   && (probe_ok env "bun" || probe_ok env "pnpm" || probe_ok env "yarn"
       || probe_ok env "npm"))%bool.

Definition catalog_lines : list Action :=
  [ Log Info AvailableTemplates;
    Log Info (CatalogEntry 1 (name vite_react_tailwind)
                (description vite_react_tailwind)
                (tags vite_react_tailwind)) ].

Definition missing_name_lines : list Action :=
  [ Log Error ProvideProjectName; Log Info UsageLine; Log Dim RunHelpForMore ].

(** The outcome of a computation that did not return, as the outcome of
    the computation it is a step of. *)
Definition recast {A B : Type} (o : Outcome A) : Outcome B :=
  match o with
  | Ret _ => Pending
  | Exit c => Exit c
  | Throw e => Throw e
  | Pending => Pending
  end.

(** The answers of [confirmAction] that count as a yes. *)
Definition yes_words : list jsstring := [lit "y"; lit "yes"].

End Facts.

Import Facts.

(** ** Vocabulary of the further properties *)

Module MoreFacts.


(** The actions of a clone step whose clone command failed, with what
    [main] does next. *)
Definition clone_failure_actions (t : Template) (projectName : jsstring)
    : list Action :=
  [ SpinnerStart CloningTemplate;
    Exec (clone_command (repoUrl t) projectName) None;
    SpinnerStop FailedToClone true;
    Log Error (CloneErrorText (Some FailedToCloneRepository));
    Log Warning (CheckRepository (repoUrl t)) ].

(** The six flags [main] knows. *)
Definition known_flags : list jsstring :=
  [ lit "--help"; lit "-h"; lit "--list"; lit "-l"; lit "--force"; lit "-f" ].

(** [null] and the primitives among the parsed values. *)
Definition is_primitive (v : jsvalue) : bool :=
  match v with
  | VNull | VBool _ | VNum _ | VStr _ => true
  | VArr _ _ | VObj _ => false
  end.

(** The callback of timer [h] of a spinner run [n] times in a row. *)
Fixpoint fire_times (h : nat) (n : nat) (s : Terminal.Spinner)
    : Terminal.Spinner * list Terminal.Write :=
  match n with
  | O => (s, [])
  | S n' =>
      let (s1, w1) := Terminal.fire h s in
      let (s2, w2) := fire_times h n' s1 in
      (s2, w1 ++ w2)
  end.

(** What the [k]-th run of a spinner's timer writes when the spinner was
    at frame [from] before the first run. *)
Definition frame_writes (from : nat) (text : jsstring) (k : nat)
    : list Terminal.Write :=
  [ Terminal.StdoutWrite Terminal.carriage_return;
    Terminal.StdoutWrite (Terminal.frame_chunk (Nat.modulo (from + k) 10) text) ].

(** A whole line that holds no escape character. *)
Definition plain_line (w : Terminal.Write) : Prop :=
  exists line, w = Terminal.ConsoleLog line /\ ~ In 27%N line.

End MoreFacts.

Import MoreFacts.

(** * Properties *)

Unset Implicit Arguments.

(** ** Scanning *)

Section ScanFacts.
Variables (m : matcher) (repl : jsstring).

Lemma scan_nil b k : scan m repl b k [] = [].
Proof. destruct k; reflexivity. Qed.

(** Consuming a match of [k] units amounts to resuming after them. *)
Lemma scan_skip s : forall b k,
  scan m repl b (S k) s = scan m repl false 0 (skipn (S k) s).
Proof.
  induction s as [|c s IH]; intros b k.
  - reflexivity.
  - cbn [scan]. destruct k as [|k].
    + reflexivity.
    + rewrite IH. reflexivity.
Qed.

Lemma scan_resume s k :
  scan m repl false k s = scan m repl false 0 (skipn k s).
Proof. destruct k; [reflexivity | apply scan_skip]. Qed.

Lemma scan_cons b c s :
  scan m repl b 0 (c :: s) =
  match m b (c :: s) with
  | O => c :: scan m repl false 0 s
  | S k => repl ++ scan m repl false 0 (skipn k s)
  end.
Proof.
  cbn [scan]. destruct (m b (c :: s)) as [|k]; [reflexivity|].
  now rewrite scan_resume.
Qed.
End ScanFacts.

Lemma skipn_run_length p s : skipn (run_length p s) s = dropWhile p s.
Proof.
  induction s as [|c s IH]; cbn; [reflexivity|].
  destruct (p c); [exact IH | reflexivity].
Qed.

Lemma run_length_all p s :
  Nat.eqb (run_length p s) (List.length s) = forallb p s.
Proof.
  induction s as [|c s IH]; cbn; [reflexivity|].
  destruct (p c); cbn; [exact IH | reflexivity].
Qed.

Lemma run_length_le p s : run_length p s <= List.length s.
Proof.
  induction s as [|c s IH]; cbn; [lia|]. destruct (p c); lia.
Qed.

Lemma dropWhile_length p s : List.length (dropWhile p s) <= List.length s.
Proof.
  induction s as [|c s IH]; cbn; [lia|]. destruct (p c); cbn; lia.
Qed.

Lemma dropWhile_id p s :
  match s with c :: _ => p c = false | [] => True end -> dropWhile p s = s.
Proof. destruct s as [|c s]; cbn; [reflexivity|]. now intros ->. Qed.

(** ** sanitizeProjectName *)

Section SanitizeFacts.

Lemma m_edges_inner s :
  m_edges false s = if forallb is_sep s then List.length s else 0.
Proof.
  unfold m_edges. cbn [andb]. rewrite run_length_all.
  destruct (forallb is_sep s) eqn:All; [|reflexivity].
  apply Nat.eqb_eq. now rewrite run_length_all.
Qed.

Lemma m_edges_start c s :
  m_edges true (c :: s) = run_length is_sep (c :: s).
Proof.
  unfold m_edges. cbn [run_length]. destruct (is_sep c); reflexivity.
Qed.

Lemma replace_unsafe s b : scan m_unsafe [hyphen] b 0 s = map mask s.
Proof.
  revert b. induction s as [|c s IH]; intros b; [reflexivity|].
  rewrite scan_cons. cbn [m_unsafe map]. unfold mask at 1.
  destruct (is_safe c); cbn [skipn app]; now rewrite IH.
Qed.

Lemma scan_edges_inner s : scan m_edges [] false 0 s = strip_tail s.
Proof.
  induction s as [|c s IH]; [reflexivity|].
  rewrite scan_cons, m_edges_inner. cbn [strip_tail].
  destruct (forallb is_sep (c :: s)).
  - cbn [List.length app]. now rewrite skipn_all, scan_nil.
  - now rewrite IH.
Qed.

Lemma replace_edges s :
  replace_all m_edges [] s = strip_tail (dropWhile is_sep s).
Proof.
  unfold replace_all. destruct s as [|c s]; [reflexivity|].
  rewrite scan_cons, m_edges_start. cbn [run_length dropWhile].
  destruct (is_sep c) eqn:Sep.
  - cbn [app]. now rewrite scan_edges_inner, skipn_run_length.
  - rewrite scan_edges_inner. cbn [strip_tail forallb]. now rewrite Sep.
Qed.

Lemma scan_runs_cons b c s :
  scan m_runs [hyphen] b 0 (c :: s) =
  if is_sep c then hyphen :: scan m_runs [hyphen] false 0 (dropWhile is_sep s)
  else c :: scan m_runs [hyphen] false 0 s.
Proof.
  rewrite scan_cons. cbn [m_runs run_length].
  destruct (is_sep c); [|reflexivity].
  now rewrite skipn_run_length.
Qed.

Lemma replace_runs s :
  replace_all m_runs [hyphen] s = scan m_runs [hyphen] false 0 s.
Proof.
  unfold replace_all. destruct s as [|c s]; [reflexivity|].
  now rewrite !scan_runs_cons.
Qed.

(** *** The units *)

Lemma slug_unit_sep c : is_slug_unit c = true -> is_sep c = is_hyphen c.
Proof.
  unfold is_slug_unit, is_sep, is_lower, is_digit, is_hyphen,
    is_underscore, between, hyphen, underscore.
  intros H. destruct (N.eqb_spec c 95) as [->|]; [now vm_compute in H|].
  now rewrite orb_false_r.
Qed.

Lemma slug_unit_safe c : is_slug_unit c = true -> is_safe c = true.
Proof.
  unfold is_slug_unit, is_safe. intros H.
  apply orb_true_iff in H as [H|H].
  - now rewrite H.
  - rewrite H. now rewrite orb_true_r.
Qed.

Lemma safe_not_sep_slug c :
  is_safe c = true -> is_sep c = false -> is_slug_unit c = true.
Proof.
  unfold is_safe, is_sep, is_slug_unit. intros H N.
  apply orb_false_iff in N as [N1 N2]. rewrite N1, N2 in *.
  now rewrite !orb_false_r in *.
Qed.

Lemma slug_unit_ascii_lower c :
  is_slug_unit c = true -> N.ltb c 128 = true /\ ascii_lower c = c.
Proof.
  unfold is_slug_unit, ascii_lower, is_lower, is_digit, is_hyphen, is_upper,
    between, hyphen. intros H.
  repeat match type of H with
         | orb _ _ = true => apply orb_true_iff in H as [H|H]
         | andb _ _ = true => apply andb_true_iff in H as [? ?]
         end;
    repeat match goal with
           | H : N.leb _ _ = true |- _ => apply N.leb_le in H
           | H : N.eqb _ _ = true |- _ => apply N.eqb_eq in H
           end;
    (split; [apply N.ltb_lt; lia|]);
    (destruct (N.leb_spec 65 c); cbn [andb]; [|reflexivity]);
    (destruct (N.leb_spec c 90); [lia | reflexivity]).
Qed.

(** *** Shape of the strings *)

Lemma forallb_last_is p s :
  s <> [] -> forallb p s = true -> last_is p s = true.
Proof.
  induction s as [|c s IH]; [congruence|]. intros _ H.
  cbn in H. apply andb_true_iff in H as [Hc Hs].
  cbn [last_is]. destruct s as [|d s]; [exact Hc|].
  apply IH; [discriminate | exact Hs].
Qed.

Lemma strip_tail_Forall P s : Forall P s -> Forall P (strip_tail s).
Proof.
  induction 1 as [|c s Hc Hs IH]; [constructor|].
  cbn [strip_tail]. destruct (forallb is_sep (c :: s)); now constructor.
Qed.

Lemma strip_tail_first s :
  first_is is_sep s = false -> first_is is_sep (strip_tail s) = false.
Proof.
  destruct s as [|c s]; [reflexivity|]. cbn [first_is]. intros Hc.
  cbn [strip_tail forallb]. rewrite Hc. exact Hc.
Qed.

Lemma strip_tail_last s : last_is is_sep (strip_tail s) = false.
Proof.
  induction s as [|c s IH]; [reflexivity|].
  cbn [strip_tail]. destruct (forallb is_sep (c :: s)) eqn:All;
    [reflexivity|].
  cbn [last_is]. destruct (strip_tail s) as [|d t] eqn:T; [|exact IH].
  (* the rest is a run of separators, so [c] is not one *)
  destruct s as [|e s]; [now cbn in All; rewrite andb_true_r in All|].
  cbn [strip_tail] in T.
  destruct (forallb is_sep (e :: s)) eqn:All'; [|discriminate].
  cbn [forallb] in All, All'. rewrite All' in All.
  now rewrite andb_true_r in All.
Qed.

Lemma strip_tail_id s : last_is is_sep s = false -> strip_tail s = s.
Proof.
  induction s as [|c s IH]; [reflexivity|]. intros L.
  cbn [strip_tail]. destruct (forallb is_sep (c :: s)) eqn:All.
  - apply forallb_last_is in All; [congruence | discriminate].
  - f_equal. destruct s as [|d s]; [reflexivity|]. apply IH. exact L.
Qed.

Lemma dropWhile_first p s : first_is p (dropWhile p s) = false.
Proof.
  induction s as [|c s IH]; [reflexivity|]. cbn [dropWhile].
  destruct (p c) eqn:E; [exact IH | exact E].
Qed.

Lemma dropWhile_Forall (P : code_unit -> Prop) p s :
  Forall P s -> Forall P (dropWhile p s).
Proof.
  induction 1 as [|c s Hc Hs IH]; [constructor|].
  cbn [dropWhile]. destruct (p c); [exact IH | now constructor].
Qed.

Lemma dropWhile_last p q s :
  last_is q s = false -> last_is q (dropWhile p s) = false.
Proof.
  induction s as [|c s IH]; [reflexivity|]. intros L.
  cbn [dropWhile]. destruct (p c); [|exact L].
  destruct s as [|d s]; [reflexivity|]. apply IH. exact L.
Qed.
End SanitizeFacts.

Section CollapseFacts.
Let collapse := scan m_runs [hyphen] false 0.

Lemma sep_false_hyphen c : is_sep c = false -> is_hyphen c = false.
Proof. unfold is_sep. intros H. now apply orb_false_iff in H. Qed.

Lemma last_is_cons p c t : t <> [] -> last_is p (c :: t) = last_is p t.
Proof. destruct t; [congruence | reflexivity]. Qed.

Lemma last_is_tail p c t :
  last_is p (c :: t) = false -> t <> [] -> last_is p t = false.
Proof. intros H Ht. now rewrite last_is_cons in H. Qed.

Lemma dropWhile_nil p s : dropWhile p s = [] -> forallb p s = true.
Proof.
  induction s as [|c s IH]; [reflexivity|]. cbn.
  destruct (p c); [exact IH | discriminate].
Qed.

Lemma collapse_cons c s :
  collapse (c :: s) =
  if is_sep c then hyphen :: collapse (dropWhile is_sep s)
  else c :: collapse s.
Proof. apply scan_runs_cons. Qed.

Lemma collapse_shape n : forall s, List.length s <= n ->
  (Forall (fun c => is_safe c = true) s ->
   Forall (fun c => is_slug_unit c = true) (collapse s))
  /\ no_double_hyphen (collapse s) = true
  /\ (first_is is_sep s = false -> first_is is_hyphen (collapse s) = false)
  /\ (last_is is_sep s = false -> last_is is_hyphen (collapse s) = false)
  /\ (s <> [] -> collapse s <> []).
Proof.
  induction n as [|n IH]; intros s Len.
  - destruct s; [|cbn in Len; lia].
    repeat split; try reflexivity; try constructor; congruence.
  - destruct s as [|c s].
    { repeat split; try reflexivity; try constructor; congruence. }
    cbn in Len. rewrite collapse_cons.
    destruct (is_sep c) eqn:Sep.
    + pose proof (dropWhile_length is_sep s) as DL.
      destruct (IH (dropWhile is_sep s) ltac:(lia))
        as (Hslug & Hdbl & Hfirst & Hlast & Hne).
      repeat split.
      * intros Hs. inversion Hs; subst. constructor; [reflexivity|].
        apply Hslug. now apply dropWhile_Forall.
      * cbn [no_double_hyphen]. rewrite Hdbl.
        rewrite Hfirst by apply dropWhile_first. now rewrite andb_false_r.
      * cbn [first_is]. congruence.
      * intros L.
        assert (Hs : s <> []) by (intros ->; cbn in L; congruence).
        apply last_is_tail in L; [|exact Hs].
        assert (Hd : dropWhile is_sep s <> []).
        { intros E. apply dropWhile_nil in E.
          apply forallb_last_is in E; congruence. }
        rewrite last_is_cons by now apply Hne.
        apply Hlast. now apply dropWhile_last.
      * discriminate.
    + destruct (IH s ltac:(lia)) as (Hslug & Hdbl & Hfirst & Hlast & Hne).
      repeat split.
      * intros Hs. inversion Hs; subst. constructor.
        -- now apply safe_not_sep_slug.
        -- now apply Hslug.
      * cbn [no_double_hyphen]. rewrite Hdbl.
        now rewrite (sep_false_hyphen _ Sep).
      * intros _. cbn [first_is]. now apply sep_false_hyphen.
      * intros L. destruct s as [|d s].
        -- cbn. now apply sep_false_hyphen.
        -- rewrite last_is_cons by (apply Hne; discriminate).
           apply Hlast. exact L.
      * discriminate.
Qed.

Lemma collapse_id s :
  Forall (fun c => is_slug_unit c = true) s ->
  no_double_hyphen s = true ->
  last_is is_hyphen s = false ->
  collapse s = s.
Proof.
  induction s as [|c s IH]; [reflexivity|]. intros Hs Hd Hl.
  inversion Hs as [|? ? Hc Hs']; subst.
  cbn [no_double_hyphen] in Hd. apply andb_true_iff in Hd as [Hd1 Hd2].
  rewrite collapse_cons, (slug_unit_sep _ Hc).
  assert (Tail : collapse s = s).
  { destruct s as [|d s]; [reflexivity|]. apply IH; assumption. }
  destruct (is_hyphen c) eqn:Hy.
  - apply N.eqb_eq in Hy. subst c. f_equal.
    rewrite dropWhile_id; [exact Tail|].
    destruct s as [|d s]; [exact I|].
    inversion Hs'; subst. rewrite slug_unit_sep by assumption.
    cbn in Hd1. now destruct (is_hyphen d).
  - now rewrite Tail.
Qed.
End CollapseFacts.

Section SlugFacts.
Context {host : Host}.

Lemma lower_from_slug s : forall before,
  Forall (fun c => is_slug_unit c = true) s -> lower_from before s = s.
Proof.
  induction s as [|c s IH]; intros before Hs; [reflexivity|].
  inversion Hs; subst. cbn [lower_from].
  destruct (slug_unit_ascii_lower c) as [-> ->]; [assumption|].
  cbn [app]. now rewrite IH.
Qed.

Lemma map_mask_safe s : Forall (fun c => is_safe c = true) (map mask s).
Proof.
  induction s as [|c s IH]; constructor; [|exact IH].
  unfold mask. destruct (is_safe c) eqn:E; [exact E | reflexivity].
Qed.

Lemma map_mask_slug s :
  Forall (fun c => is_slug_unit c = true) s -> map mask s = s.
Proof.
  induction 1 as [|c s Hc Hs IH]; [reflexivity|]. cbn [map].
  unfold mask at 1. now rewrite (slug_unit_safe _ Hc), IH.
Qed.

Lemma no_double_hyphen_spec s :
  no_double_hyphen s = true ->
  forall pre post, s <> pre ++ hyphen :: hyphen :: post.
Proof.
  intros H pre. revert s H.
  induction pre as [|c pre IH]; intros s H post E; subst s.
  - cbn in H. discriminate.
  - cbn [app no_double_hyphen] in H. apply andb_true_iff in H as [_ H].
    exact (IH _ H post eq_refl).
Qed.

Lemma last_is_spec p s c :
  last_is p s = false -> p c = true -> forall pre, s <> pre ++ [c].
Proof.
  intros H Hc pre. revert s H.
  induction pre as [|d pre IH]; intros s H E; subst s.
  - cbn in H. congruence.
  - cbn [app] in H.
    rewrite last_is_cons in H by (destruct pre; discriminate).
    exact (IH _ H eq_refl).
Qed.

(** The shape of every result of [sanitizeProjectName]. *)
Lemma sanitize_shape name :
  Forall (fun c => is_slug_unit c = true) (sanitizeProjectName name)
  /\ no_double_hyphen (sanitizeProjectName name) = true
  /\ first_is is_hyphen (sanitizeProjectName name) = false
  /\ last_is is_hyphen (sanitizeProjectName name) = false.
Proof.
  unfold sanitizeProjectName.
  rewrite replace_runs, replace_edges.
  unfold replace_all. rewrite replace_unsafe.
  set (t := strip_tail (dropWhile is_sep (map mask (toLowerCase name)))).
  destruct (collapse_shape (List.length t) t (le_n _))
    as (Hslug & Hdbl & Hfirst & Hlast & _).
  repeat split.
  - apply Hslug. apply strip_tail_Forall, dropWhile_Forall, map_mask_safe.
  - exact Hdbl.
  - apply Hfirst, strip_tail_first, dropWhile_first.
  - apply Hlast, strip_tail_last.
Qed.

Lemma sanitize_slug_id s :
  Forall (fun c => is_slug_unit c = true) s ->
  no_double_hyphen s = true ->
  first_is is_hyphen s = false ->
  last_is is_hyphen s = false ->
  sanitizeProjectName s = s.
Proof.
  intros Hs Hd Hf Hl. unfold sanitizeProjectName, toLowerCase.
  rewrite lower_from_slug by assumption.
  rewrite replace_runs, replace_edges.
  unfold replace_all. rewrite replace_unsafe, map_mask_slug by assumption.
  rewrite dropWhile_id.
  2:{ destruct s as [|c s]; [exact I|]. inversion Hs; subst.
      rewrite slug_unit_sep by assumption. exact Hf. }
  rewrite strip_tail_id.
  - now apply collapse_id.
  - clear Hd Hf. induction Hs as [|c s Hc Hs IH]; [reflexivity|].
    destruct s as [|d s].
    + cbn in *. now rewrite slug_unit_sep.
    + apply IH. exact Hl.
Qed.
End SlugFacts.

(** C9.  [sanitizeProjectName] is idempotent, and its result holds only
    lowercase ASCII letters, digits and hyphens: no underscore, no two
    hyphens in a row, no hyphen at either end. *)
Theorem sanitizeProjectName_idempotent_slug (host : Host) (name : jsstring) :
  sanitizeProjectName (sanitizeProjectName name) = sanitizeProjectName name
  /\ Forall (fun c => is_lower c = true \/ is_digit c = true \/ c = hyphen)
       (sanitizeProjectName name)
  /\ ~ In underscore (sanitizeProjectName name)
  /\ (forall pre post,
        sanitizeProjectName name <> pre ++ hyphen :: hyphen :: post)
  /\ (forall rest, sanitizeProjectName name <> hyphen :: rest)
  /\ (forall pre, sanitizeProjectName name <> pre ++ [hyphen]).
Proof.
  destruct (sanitize_shape name) as (Hslug & Hdbl & Hfirst & Hlast).
  repeat split.
  - now apply sanitize_slug_id.
  - eapply Forall_impl; [|exact Hslug]. intros c Hc.
    unfold is_slug_unit in Hc.
    apply orb_true_iff in Hc as [Hc|Hc];
      [apply orb_true_iff in Hc as [Hc|Hc]|]; auto.
    right; right. now apply N.eqb_eq.
  - intros Hin. rewrite Forall_forall in Hslug.
    specialize (Hslug _ Hin). discriminate.
  - now apply no_double_hyphen_spec.
  - intros rest E. rewrite E in Hfirst. discriminate.
  - apply last_is_spec with (p := is_hyphen); [exact Hlast | reflexivity].
Qed.

(** ** isValidProjectName *)

Lemma str_eqb_eq a : forall b, str_eqb a b = true <-> a = b.
Proof.
  induction a as [|x a IH]; intros [|y b]; cbn; try (split; congruence).
  rewrite andb_true_iff, N.eqb_eq, IH. split.
  - now intros [-> ->].
  - intros E. inversion E. auto.
Qed.

Lemma includes_In l s : includes l s = true <-> In s l.
Proof.
  unfold includes. rewrite existsb_exists. split.
  - intros (x & Hin & E). apply str_eqb_eq in E. now subst.
  - intros Hin. exists s. split; [exact Hin | now apply str_eqb_eq].
Qed.

Lemma dropWhile_all p s : forallb p s = true -> dropWhile p s = [].
Proof.
  induction s as [|c s IH]; [reflexivity|]. cbn.
  destruct (p c); [exact IH | discriminate].
Qed.

(** [name.trim().length === 0] holds exactly of the strings of white space. *)
Lemma trim_blank s :
  Nat.eqb (List.length (trim s)) 0 = forallb is_whitespace s.
Proof.
  unfold trim, trimEnd, trimStart.
  destruct (forallb is_whitespace s) eqn:All.
  - now rewrite (dropWhile_all _ _ All).
  - pose proof (dropWhile_first is_whitespace s) as First.
    destruct (dropWhile is_whitespace s) as [|c d] eqn:D.
    + apply dropWhile_nil in D. congruence.
    + cbn [first_is] in First.
      destruct (dropWhile is_whitespace (rev (c :: d))) as [|e t] eqn:R.
      * apply dropWhile_nil in R. rewrite forallb_forall in R.
        rewrite (R c) in First; [discriminate|].
        apply in_rev. rewrite rev_involutive. now left.
      * rewrite length_rev. reflexivity.
Qed.

Lemma name_pattern_test_spec s :
  name_pattern_test s = true <->
  s <> [] /\ (forall c, In c s -> is_name_unit c = true).
Proof.
  unfold name_pattern_test.
  rewrite andb_true_iff, run_length_all, forallb_forall, Nat.ltb_lt.
  split.
  - intros [Pos All]. split; [|exact All]. intros ->. cbn in Pos. lia.
  - intros [Ne All]. split; [|exact All].
    destruct s as [|c s]; [congruence|]. cbn.
    rewrite (All c) by now left. lia.
Qed.

Section ValidateFacts.
Context {host : Host}.

Lemma check_blank name :
  (is_empty name || Nat.eqb (List.length (trim name)) 0)%bool = true
  <-> blank name.
Proof.
  rewrite trim_blank. unfold blank. rewrite <- forallb_forall.
  destruct name as [|c s]; [cbn; tauto|]. reflexivity.
Qed.

Lemma check_start name :
  (startsWith name (lit ".") || startsWith name (lit "_"))%bool = true
  <-> bad_start name.
Proof.
  unfold bad_start. destruct name as [|c s].
  - cbn. split; [discriminate|]. now intros (? & ? & ? & _).
  - change (lit ".") with [46%N]. change (lit "_") with [underscore].
    cbn [startsWith]. rewrite !andb_true_r, orb_true_iff, !N.eqb_eq.
    split.
    + intros H. now exists c, s.
    + intros (c' & r & E & H). now inversion E; subst.
Qed.

Lemma check_units name :
  ~ blank name ->
  (negb (name_pattern_test name) = true <-> bad_unit name).
Proof.
  intros NB. unfold bad_unit. rewrite negb_true_iff.
  destruct (name_pattern_test name) eqn:T.
  - apply name_pattern_test_spec in T as [_ All]. split; [discriminate|].
    intros (c & Hin & Hc). rewrite (All c Hin) in Hc. discriminate.
  - split; [intros _|reflexivity].
    destruct (forallb is_name_unit name) eqn:All.
    + exfalso. assert (name <> []).
      { intros ->. apply NB. intros c []. }
      assert (name_pattern_test name = true); [|congruence].
      apply name_pattern_test_spec. split; [assumption|].
      now apply forallb_forall.
    + clear T NB. induction name as [|c s IH]; [discriminate|].
      cbn in All. destruct (is_name_unit c) eqn:Hc.
      * destruct (IH All) as (d & Hin & Hd). exists d. split; [now right|exact Hd].
      * exists c. split; [now left | exact Hc].
Qed.
End ValidateFacts.

(** C3.  [isValidProjectName] rejects a name exactly when it is empty or
    white space only, is longer than 214, starts with [.] or [_], holds a
    unit outside [[a-zA-Z0-9-_]], or is a reserved name up to case; the
    reason is that of the first check that fails, in this order; and
    [my-app_1] is accepted. *)
Theorem isValidProjectName_first_failing_check (host : Host) (name : jsstring) :
  (valid (isValidProjectName name) = false <->
     blank name \/ too_long name \/ bad_start name \/ bad_unit name
     \/ reserved name)
  /\ (blank name ->
      isValidProjectName name = invalid "Project name cannot be empty")
  /\ (~ blank name -> too_long name ->
      isValidProjectName name =
      invalid "Project name must be less than 214 characters")
  /\ (~ blank name -> ~ too_long name -> bad_start name ->
      isValidProjectName name =
      invalid "Project name cannot start with . or _")
  /\ (~ blank name -> ~ too_long name -> ~ bad_start name -> bad_unit name ->
      isValidProjectName name =
      invalid "Project name can only contain letters, numbers, hyphens, and underscores")
  /\ (~ blank name -> ~ too_long name -> ~ bad_start name ->
      ~ bad_unit name -> reserved name ->
      isValidProjectName name =
      invalid "Project name cannot be a reserved name")
  /\ (~ blank name -> ~ too_long name -> ~ bad_start name ->
      ~ bad_unit name -> ~ reserved name ->
      isValidProjectName name = {| valid := true; reason := None |})
  /\ isValidProjectName (lit "my-app_1") = {| valid := true; reason := None |}.
Proof.
  pose proof (check_blank name) as B.
  pose proof (check_start name) as S.
  pose proof (check_units name) as U.
  pose proof (includes_In CONFIG.RESERVED_NAMES (toLowerCase name)) as R.
  fold (reserved name) in R.
  assert (L : Nat.ltb CONFIG.MAX_PROJECT_NAME_LENGTH (List.length name) = true
              <-> too_long name) by apply Nat.ltb_lt.
  unfold isValidProjectName.
  destruct (is_empty name || Nat.eqb (List.length (trim name)) 0)%bool.
  { assert (blank name) by now apply B.
    repeat split; intros; try tauto; try reflexivity. }
  assert (NB : ~ blank name) by (intros H; apply B in H; discriminate).
  specialize (U NB).
  destruct (Nat.ltb CONFIG.MAX_PROJECT_NAME_LENGTH (List.length name)).
  { assert (too_long name) by now apply L.
    repeat split; intros; try tauto; try reflexivity. }
  assert (NL : ~ too_long name) by (intros H; apply L in H; discriminate).
  destruct (startsWith name (lit ".") || startsWith name (lit "_"))%bool.
  { assert (bad_start name) by now apply S.
    repeat split; intros; try tauto; try reflexivity. }
  assert (NS : ~ bad_start name) by (intros H; apply S in H; discriminate).
  destruct (negb (name_pattern_test name)).
  { assert (bad_unit name) by now apply U.
    repeat split; intros; try tauto; try reflexivity. }
  assert (NU : ~ bad_unit name) by (intros H; apply U in H; discriminate).
  destruct (includes CONFIG.RESERVED_NAMES (toLowerCase name)).
  { assert (reserved name) by now apply R.
    repeat split; intros; try tauto; try reflexivity. }
  assert (NR : ~ reserved name) by (intros H; apply R in H; discriminate).
  repeat split; intros; try tauto; try reflexivity.
  cbn in *. intuition discriminate.
Qed.

(** ** The program monad *)

Lemma bind_run {A B} (m : M A) (f : A -> M B) i a acts i' :
  m i = mkRun (Ret a) acts i' ->
  bind m f i =
  mkRun (outcome (f a i')) (acts ++ actions (f a i')) (stdin_left (f a i')).
Proof. unfold bind. now intros ->. Qed.

Lemma bind_throw {A B} (m : M A) (f : A -> M B) i e acts i' :
  m i = mkRun (Throw e) acts i' -> bind m f i = mkRun (Throw e) acts i'.
Proof. unfold bind. now intros ->. Qed.

Lemma bind_exit {A B} (m : M A) (f : A -> M B) i c acts i' :
  m i = mkRun (Exit c) acts i' -> bind m f i = mkRun (Exit c) acts i'.
Proof. unfold bind. now intros ->. Qed.

Lemma bind_not_ret {A B} (m : M A) (f : A -> M B) i :
  (forall a, outcome (m i) <> Ret a) ->
  bind m f i
  = mkRun (recast (outcome (m i))) (actions (m i)) (stdin_left (m i)).
Proof.
  unfold bind. intros H.
  destruct (outcome (m i)) as [a| | |]; try reflexivity. now destruct (H a).
Qed.

Lemma recast_not_ret {A B} (o : Outcome A) (b : B) : recast o <> Ret b.
Proof. destruct o; discriminate. Qed.

Lemma bind_actions {A B} (m : M A) (f : A -> M B) i :
  exists tail, actions (bind m f i) = actions (m i) ++ tail.
Proof.
  unfold bind. destruct (outcome (m i)); cbn [actions];
    first [now eexists | exists []; now rewrite app_nil_r].
Qed.

Lemma try_catch_actions {A} (m : M A) (h : Thrown -> M A) i :
  exists tail, actions (try_catch m h i) = actions (m i) ++ tail.
Proof.
  unfold try_catch. destruct (outcome (m i)); cbn [actions];
    first [now eexists | exists []; now rewrite app_nil_r].
Qed.

Lemma try_catch_no_throw {A} (m : M A) (h : Thrown -> M A) i :
  (forall e, outcome (m i) <> Throw e) -> try_catch m h i = m i.
Proof.
  unfold try_catch. intros H.
  destruct (outcome (m i)) as [| |e|]; try reflexivity. now destruct (H e).
Qed.

Lemma bind_stop {A B} (m : M A) (f : A -> M B) i :
  (forall a, outcome (m i) <> Ret a) ->
  outcome (bind m f i) =
    match outcome (m i) with
    | Ret _ => Pending
    | Exit c => Exit c
    | Throw e => Throw e
    | Pending => Pending
    end
  /\ actions (bind m f i) = actions (m i)
  /\ stdin_left (bind m f i) = stdin_left (m i).
Proof.
  unfold bind. intros H. destruct (outcome (m i)) eqn:E; cbn; auto.
  now destruct (H a).
Qed.

(** ** selectTemplate *)

Section SelectFacts.
Context {host : Host} (env : Env).

Lemma print_menu_run ts : forall k i,
  exists lines,
    print_menu k ts i = mkRun (Ret tt) lines i
    /\ Forall (fun a => exists m, a = Log Info m) lines.
Proof.
  induction ts as [|t ts IH]; intros k i.
  - exists []. split; [reflexivity | constructor].
  - destruct (IH (S k) i) as (lines & E & Hl).
    eexists (_ :: lines). split.
    + cbn [print_menu]. unfold Logger.info.
      erewrite bind_run by reflexivity. rewrite E. reflexivity.
    + constructor; [eexists; reflexivity | exact Hl].
Qed.

(** The run of [selectTemplate] is the menu followed by the run of its
    loop. *)
Lemma selectTemplate_run ts i :
  exists menu,
    Forall (fun a => exists m, a = Log Info m) menu
    /\ outcome (selectTemplate ts i) = outcome (select_loop ts i)
    /\ actions (selectTemplate ts i) = menu ++ actions (select_loop ts i)
    /\ stdin_left (selectTemplate ts i) = stdin_left (select_loop ts i).
Proof.
  destruct (print_menu_run ts 0 i) as (lines & E & Hl).
  exists (Log Info SelectATemplate :: lines). split.
  - constructor; [eexists; reflexivity | exact Hl].
  - unfold selectTemplate, Logger.info.
    erewrite bind_run by reflexivity.
    erewrite bind_run by exact E. cbn. auto.
Qed.

Lemma pick_in_range ts n :
  (1 <= n <= Z.of_nat (List.length ts))%Z ->
  exists t, nth_error ts (Z.to_nat (n - 1)) = Some t
            /\ pick ts (Some n) = Some t.
Proof.
  intros [Lo Hi]. unfold pick.
  destruct (Z.leb_spec 1 n); [|lia].
  destruct (Z.leb_spec n (Z.of_nat (List.length ts))); [|lia].
  cbn [andb].
  destruct (nth_error ts (Z.to_nat (n - 1))) as [t|] eqn:E.
  - now exists t.
  - apply nth_error_None in E. lia.
Qed.

Lemma pick_out_of_range ts n :
  ~ (1 <= n <= Z.of_nat (List.length ts))%Z -> pick ts (Some n) = None.
Proof.
  intros H. unfold pick.
  destruct (Z.leb_spec 1 n); [|reflexivity].
  destruct (Z.leb_spec n (Z.of_nat (List.length ts))); [lia | reflexivity].
Qed.

Lemma select_loop_rejects ts bad : forall rest,
  Forall (fun a => rejected ts a) bad ->
  outcome (select_loop ts (bad ++ rest)) = outcome (select_loop ts rest)
  /\ stdin_left (select_loop ts (bad ++ rest))
     = stdin_left (select_loop ts rest)
  /\ actions (select_loop ts (bad ++ rest))
     = flat_map (fun _ => [Question (EnterChoice (List.length ts));
                           Log Error (InvalidChoice (List.length ts))]) bad
       ++ actions (select_loop ts rest).
Proof.
  intros rest H. induction H as [|a bad Ha Hbad IH]; [auto|].
  destruct IH as (IHo & IHs & IHa).
  assert (P : pick ts (parseInt10 (trim a)) = None).
  { destruct Ha as [-> | (n & -> & Hn)]; [reflexivity|].
    now apply pick_out_of_range. }
  cbn [app select_loop flat_map]. rewrite P. cbn. rewrite IHa. auto.
Qed.

Lemma invalid_choices_app a b :
  invalid_choices (a ++ b) = invalid_choices a + invalid_choices b.
Proof. unfold invalid_choices. now rewrite filter_app, length_app. Qed.

Lemma invalid_choices_menu menu :
  Forall (fun a => exists m, a = Log Info m) menu ->
  invalid_choices menu = 0.
Proof.
  induction 1 as [|a menu (m & ->) _ IH]; [reflexivity | exact IH].
Qed.

Lemma invalid_choices_rounds n (bad : list jsstring) :
  invalid_choices
    (flat_map (fun _ => [Question (EnterChoice n);
                         Log Error (InvalidChoice n)]) bad)
  = List.length bad.
Proof.
  induction bad as [|a bad IH]; [reflexivity|].
  cbn [flat_map]. rewrite invalid_choices_app, IH. reflexivity.
Qed.

Lemma select_loop_never_fails ts i :
  (exists t, outcome (select_loop ts i) = Ret t)
  \/ outcome (select_loop ts i) = Pending.
Proof.
  induction i as [|a i IH]; [now right|].
  cbn [select_loop].
  destruct (pick ts (parseInt10 (trim a))) as [t|]; [left; now exists t|].
  exact IH.
Qed.
End SelectFacts.

(** C10.  [selectTemplate] accepts a line as soon as [parseInt] of the
    trimmed line lies between 1 and the number of templates, whatever
    follows the digits, and returns the template at that position counted
    from 1; [2abc] selects the second template and [1.9] the first.  A line
    whose number is out of range or missing only asks again: the rejected
    lines are skipped, each with an error line, and no input makes the
    selection exit or throw. *)
Theorem selectTemplate_numeric_prefix (host : Host)
    (templates : list Template) (rest : list jsstring) :
  (forall answer n,
      parseInt10 (trim answer) = Some n ->
      (1 <= n <= Z.of_nat (List.length templates))%Z ->
      exists t,
        nth_error templates (Z.to_nat (n - 1)) = Some t
        /\ outcome (selectTemplate templates (answer :: rest)) = Ret t
        /\ stdin_left (selectTemplate templates (answer :: rest)) = rest)
  /\ (forall t1 t2 more,
        outcome (selectTemplate (t1 :: t2 :: more) (lit "2abc" :: rest))
        = Ret t2
        /\ outcome (selectTemplate (t1 :: more) (lit "1.9" :: rest)) = Ret t1)
  /\ (forall bad,
        Forall (fun a => rejected templates a) bad ->
        outcome (selectTemplate templates (bad ++ rest))
        = outcome (selectTemplate templates rest)
        /\ stdin_left (selectTemplate templates (bad ++ rest))
           = stdin_left (selectTemplate templates rest)
        /\ invalid_choices (actions (selectTemplate templates (bad ++ rest)))
           = List.length bad
             + invalid_choices (actions (selectTemplate templates rest)))
  /\ (forall input,
        (exists t, outcome (selectTemplate templates input) = Ret t)
        \/ outcome (selectTemplate templates input) = Pending).
Proof.
  assert (Accept : forall ts answer n,
             parseInt10 (trim answer) = Some n ->
             (1 <= n <= Z.of_nat (List.length ts))%Z ->
             exists t,
               nth_error ts (Z.to_nat (n - 1)) = Some t
               /\ outcome (selectTemplate ts (answer :: rest)) = Ret t
               /\ stdin_left (selectTemplate ts (answer :: rest)) = rest).
  { intros ts answer n Hp Hn.
    destruct (pick_in_range ts n Hn) as (t & Hnth & Hpick).
    exists t. split; [exact Hnth|].
    destruct (selectTemplate_run ts (answer :: rest))
      as (menu & _ & -> & _ & ->).
    cbn [select_loop]. rewrite Hp, Hpick. auto. }
  repeat split.
  - apply Accept.
  - destruct (Accept (t1 :: t2 :: more) (lit "2abc") 2%Z eq_refl)
      as (t & Hnth & Ho & _); [cbn [List.length]; lia|].
    change (Z.to_nat (2 - 1)) with 1 in Hnth. cbn in Hnth. congruence.
  - destruct (Accept (t1 :: more) (lit "1.9") 1%Z eq_refl)
      as (t & Hnth & Ho & _); [cbn [List.length]; lia|].
    change (Z.to_nat (1 - 1)) with 0 in Hnth. cbn in Hnth. congruence.
  - destruct (selectTemplate_run templates (bad ++ rest)) as (? & _ & -> & _).
    destruct (selectTemplate_run templates rest) as (? & _ & -> & _).
    now apply select_loop_rejects.
  - destruct (selectTemplate_run templates (bad ++ rest)) as (? & _ & _ & _ & ->).
    destruct (selectTemplate_run templates rest) as (? & _ & _ & _ & ->).
    now apply select_loop_rejects.
  - destruct (selectTemplate_run templates (bad ++ rest))
      as (menu1 & M1 & _ & -> & _).
    destruct (selectTemplate_run templates rest) as (menu2 & M2 & _ & -> & _).
    destruct (select_loop_rejects templates bad rest H) as (_ & _ & ->).
    rewrite !invalid_choices_app.
    rewrite (invalid_choices_menu _ M1), (invalid_choices_menu _ M2).
    rewrite invalid_choices_rounds. lia.
  - intros input.
    destruct (selectTemplate_run templates input) as (? & _ & -> & _).
    apply select_loop_never_fails.
Qed.

(** ** checkRequirements *)

Section RequirementFacts.
Context {host : Host} (env : Env).

Lemma checkRequirements_run i :
  checkRequirements env i =
  mkRun
    (Ret {| node := exec_ok env (lit "node --version") None;
            git := exec_ok env (lit "git --version") None;
            packageManager :=
              find available
                (map (fun pm =>
                        set_available pm
                          (exec_ok env (version_probe (pm_name pm)) None))
                   packageManagers) |})
    requirement_probes i.
Proof. reflexivity. Qed.
End RequirementFacts.

(** C4.  Whatever tools are available, [checkRequirements] selects the
    first available candidate in the order bun, pnpm, yarn, npm, and selects
    none exactly when none of the four is available. *)
Theorem checkRequirements_first_available (host : Host) (env : Env)
    (i : list jsstring) :
  exists req,
    outcome (checkRequirements env i) = Ret req
    /\ map pm_name packageManagers
       = [lit "bun"; lit "pnpm"; lit "yarn"; lit "npm"]
    /\ packageManager req
       = option_map (fun pm => set_available pm true)
           (find (fun pm => exec_ok env (version_probe (pm_name pm)) None)
              packageManagers)
    /\ (probe_ok env "bun" = true ->
        option_map pm_name (packageManager req) = Some (lit "bun"))
    /\ (probe_ok env "bun" = false -> probe_ok env "pnpm" = true ->
        option_map pm_name (packageManager req) = Some (lit "pnpm"))
    /\ (probe_ok env "bun" = false -> probe_ok env "pnpm" = false ->
        probe_ok env "yarn" = true ->
        option_map pm_name (packageManager req) = Some (lit "yarn"))
    /\ (probe_ok env "bun" = false -> probe_ok env "pnpm" = false ->
        probe_ok env "yarn" = false -> probe_ok env "npm" = true ->
        option_map pm_name (packageManager req) = Some (lit "npm"))
    /\ (packageManager req = None <->
        probe_ok env "bun" = false /\ probe_ok env "pnpm" = false
        /\ probe_ok env "yarn" = false /\ probe_ok env "npm" = false).
Proof.
  rewrite checkRequirements_run. eexists. split; [reflexivity|].
  split; [reflexivity|].
  cbn [packageManager]. unfold probe_ok, packageManagers.
  cbn [map find set_available available pm_name option_map].
  destruct (exec_ok env (version_probe (lit "bun")) None);
  destruct (exec_ok env (version_probe (lit "pnpm")) None);
  destruct (exec_ok env (version_probe (lit "yarn")) None);
  destruct (exec_ok env (version_probe (lit "npm")) None);
  cbn [option_map pm_name];
  repeat split; intros; try reflexivity; try discriminate;
  repeat match goal with H : _ /\ _ |- _ => destruct H end; discriminate.
Qed.

(** ** loadTemplates *)

Section TemplateFacts.
Context {host : Host}.

Lemma filter_valid_run registry i :
  filter_valid registry i =
  mkRun (Ret (filter passes registry))
    (map skip_warning (filter (fun t => negb (passes t)) registry)) i.
Proof.
  induction registry as [|t registry IH]; [reflexivity|].
  cbn [filter_valid filter]. unfold passes in *.
  destruct (valid (validateTemplate t)) eqn:V; cbn [negb].
  - erewrite bind_run by exact IH. cbn. now rewrite app_nil_r.
  - unfold Logger.warning. erewrite bind_run by reflexivity.
    rewrite IH. reflexivity.
Qed.

Lemma loadTemplatesFrom_run registry i :
  loadTemplatesFrom registry i =
  mkRun
    (match filter passes registry with
     | [] => Throw no_valid_templates
     | kept => Ret kept
     end)
    (map skip_warning (filter (fun t => negb (passes t)) registry)) i.
Proof.
  unfold loadTemplatesFrom.
  erewrite bind_run by apply filter_valid_run.
  destruct (filter passes registry); cbn; now rewrite app_nil_r.
Qed.
End TemplateFacts.

(** C5.  Over any registry, [loadTemplates] returns exactly the entries that
    pass [validateTemplate], in the order of the registry; each entry that
    fails is dropped with one warning, in order, and nothing else happens;
    the no-valid-templates error is thrown exactly when no entry passes. *)
Theorem loadTemplates_stable_filter (host : Host) (registry : list Template)
    (i : list jsstring) :
  (filter passes registry <> [] ->
   outcome (loadTemplatesFrom registry i) = Ret (filter passes registry))
  /\ (outcome (loadTemplatesFrom registry i) = Throw no_valid_templates
      <-> forall t, In t registry -> valid (validateTemplate t) = false)
  /\ ((forall t, In t registry -> valid (validateTemplate t) = false)
      \/ outcome (loadTemplatesFrom registry i) = Ret (filter passes registry))
  /\ actions (loadTemplatesFrom registry i)
     = map skip_warning (filter (fun t => negb (passes t)) registry)
  /\ stdin_left (loadTemplatesFrom registry i) = i
  /\ loadTemplates = loadTemplatesFrom BUILT_IN_TEMPLATES.
Proof.
  rewrite loadTemplatesFrom_run. cbn [outcome actions stdin_left].
  assert (E : filter passes registry = [] <->
              forall t, In t registry -> valid (validateTemplate t) = false).
  { split.
    - intros F t Hin. destruct (valid (validateTemplate t)) eqn:V; [|reflexivity].
      assert (In t (filter passes registry)) by (apply filter_In; auto).
      rewrite F in *. contradiction.
    - intros All. induction registry as [|t r IH]; [reflexivity|].
      cbn [filter]. unfold passes at 1. rewrite (All t) by now left.
      apply IH. intros u Hu. apply All. now right. }
  destruct (filter passes registry) as [|t kept] eqn:F.
  - split; [congruence|]. split; [tauto|]. split; [left; tauto|].
    repeat split.
  - split; [reflexivity|]. split.
    + split; [discriminate|]. intros H. apply E in H. discriminate.
    + split; [now right|]. repeat split.
Qed.

(** ** The steps of main *)

Section StepFacts.
Context {host : Host} (env : Env).

Lemma cloneTemplate_run url projectName i :
  cloneTemplate env url projectName i =
  if exec_ok env (clone_command url projectName) None then
    if exists_sync env (git_dir env projectName) then
      if rm_ok env (git_dir env projectName) then
        mkRun (Ret {| success := true; error := None |})
          [SpinnerStart CloningTemplate;
           Exec (clone_command url projectName) None;
           RmSync (git_dir env projectName);
           SpinnerStop TemplateCloned false] i
      else
        mkRun (Ret {| success := false;
                      error := Some FailedToRemoveGitFolder |})
          [SpinnerStart CloningTemplate;
           Exec (clone_command url projectName) None;
           RmSync (git_dir env projectName);
           SpinnerStop ClonedButGitCleanupFailed true] i
    else
      mkRun (Ret {| success := true; error := None |})
        [SpinnerStart CloningTemplate;
         Exec (clone_command url projectName) None;
         SpinnerStop TemplateCloned false] i
  else
    mkRun (Ret {| success := false; error := Some FailedToCloneRepository |})
      [SpinnerStart CloningTemplate;
       Exec (clone_command url projectName) None;
       SpinnerStop FailedToClone true] i.
Proof.
  unfold cloneTemplate, execCommand, bind, emit, ret, git_dir.
  cbn [outcome actions stdin_left].
  destruct (exec_ok env (clone_command url projectName) None);
    [|reflexivity].
  cbn [negb].
  destruct (exists_sync env
              (path_join (path_join (cwd env) projectName) (lit ".git")));
    [|reflexivity].
  cbn [outcome actions stdin_left].
  destruct (rm_ok env
              (path_join (path_join (cwd env) projectName) (lit ".git")));
    reflexivity.
Qed.

Lemma installDependencies_run dir pm i :
  installDependencies env dir pm i =
  mkRun (Ret (exec_ok env (install_command pm) (Some dir)))
    (install_actions env dir pm) i.
Proof.
  unfold installDependencies, install_actions, execCommand, Logger.info,
    Logger.dim, Logger.warning, bind, emit, ret.
  cbn [outcome actions stdin_left]. fold (install_command pm).
  destruct (exec_ok env (install_command pm) (Some dir)); reflexivity.
Qed.

Lemma initializeGitRepository_run dir projectName i :
  initializeGitRepository env dir projectName i =
  mkRun (Ret (forallb (fun c => exec_ok env c (Some dir)) git_commands))
    (git_init_actions env dir) i.
Proof.
  unfold initializeGitRepository, git_init_actions, git_commands.
  unfold run_commands, attempt, execCommand, Logger.warning, bind, emit, ret.
  cbn [outcome actions stdin_left forallb].
  destruct (exec_ok env (lit "git init") (Some dir)); [|reflexivity].
  cbn [negb outcome actions stdin_left andb].
  destruct (exec_ok env (lit "git add .") (Some dir)); [|reflexivity].
  cbn [negb outcome actions stdin_left andb].
  destruct (exec_ok env
              (lit "git commit -m " ++ dquote
               ++ CONFIG.DEFAULT_COMMIT_MESSAGE ++ dquote) (Some dir));
    reflexivity.
Qed.

Lemma summary_run projectName pm t installed i :
  summary projectName pm t installed i =
  mkRun (Ret tt) (summary_actions projectName pm t installed) i.
Proof. destruct installed; reflexivity. Qed.
End StepFacts.

(** ** Properties of parsed JSON *)

Lemma str_eqb_refl a : str_eqb a a = true.
Proof. now apply str_eqb_eq. Qed.

Lemma str_eqb_neq a b : a <> b -> str_eqb a b = false.
Proof.
  intros N. destruct (str_eqb a b) eqn:E; [|reflexivity].
  apply str_eqb_eq in E. contradiction.
Qed.

Lemma assoc_get_app_miss k props more :
  assoc_get k props = None -> assoc_get k (props ++ more) = assoc_get k more.
Proof.
  induction props as [|[k' v'] props IH]; [reflexivity|].
  cbn. destruct (str_eqb k k'); [discriminate | exact IH].
Qed.

Lemma assoc_get_app_hit k props more x :
  assoc_get k props = Some x -> assoc_get k (props ++ more) = Some x.
Proof.
  induction props as [|[k' v'] props IH]; [discriminate|].
  cbn. destruct (str_eqb k k'); [trivial | exact IH].
Qed.

Section AssocFacts.
Variables (k : jsstring) (v : jsvalue).

Lemma assoc_has_get props :
  assoc_has k props = true <-> exists x, assoc_get k props = Some x.
Proof.
  induction props as [|[k' v'] props IH]; cbn.
  - split; [discriminate | now intros [? ?]].
  - destruct (str_eqb k k'); cbn; [|exact IH].
    split; [now exists v' | reflexivity].
Qed.

Lemma assoc_get_replace props :
  assoc_has k props = true -> assoc_get k (assoc_replace k v props) = Some v.
Proof.
  induction props as [|[k' v'] props IH]; cbn; [discriminate|].
  destruct (str_eqb k k') eqn:E; cbn; rewrite E; [reflexivity | exact IH].
Qed.

Lemma assoc_get_replace_other k' props :
  k <> k' -> assoc_get k' (assoc_replace k v props) = assoc_get k' props.
Proof.
  intros N. induction props as [|[k0 v0] props IH]; [reflexivity|].
  cbn. destruct (str_eqb k k0) eqn:E; cbn.
  - apply str_eqb_eq in E. subst k0.
    now rewrite (str_eqb_neq _ _ (fun H => N (eq_sym H))).
  - now rewrite IH.
Qed.

Lemma assoc_get_set props : assoc_get k (assoc_set k v props) = Some v.
Proof.
  unfold assoc_set. destruct (assoc_has k props) eqn:H.
  - now apply assoc_get_replace.
  - rewrite assoc_get_app_miss.
    + cbn. now rewrite str_eqb_refl.
    + destruct (assoc_get k props) eqn:G; [|reflexivity].
      assert (assoc_has k props = true) by (apply assoc_has_get; eauto).
      congruence.
Qed.

Lemma assoc_get_set_other k' props :
  k <> k' -> assoc_get k' (assoc_set k v props) = assoc_get k' props.
Proof.
  intros N. unfold assoc_set. destruct (assoc_has k props).
  - now apply assoc_get_replace_other.
  - destruct (assoc_get k' props) as [x|] eqn:G.
    + now apply assoc_get_app_hit.
    + rewrite assoc_get_app_miss by assumption.
      cbn. now rewrite (str_eqb_neq _ _ (fun H => N (eq_sym H))).
Qed.

Lemma assoc_get_delete props : assoc_get k (assoc_delete k props) = None.
Proof.
  induction props as [|[k' v'] props IH]; [reflexivity|].
  cbn. destruct (str_eqb k k') eqn:E; [exact IH|]. cbn. now rewrite E.
Qed.

Lemma assoc_get_delete_other k' props :
  k <> k' -> assoc_get k' (assoc_delete k props) = assoc_get k' props.
Proof.
  intros N. induction props as [|[k0 v0] props IH]; [reflexivity|].
  cbn. destruct (str_eqb k k0) eqn:E; cbn.
  - apply str_eqb_eq in E. subst k0.
    now rewrite (str_eqb_neq _ _ (fun H => N (eq_sym H))).
  - now rewrite IH.
Qed.
End AssocFacts.

Lemma get_delete_prop s k : get_prop (delete_prop s k) k = None.
Proof. destruct s; cbn; try reflexivity; apply assoc_get_delete. Qed.

Lemma get_delete_prop_other s k k' :
  k <> k' -> get_prop (delete_prop s k) k' = get_prop s k'.
Proof.
  intros N. destruct s; cbn; try reflexivity; now apply assoc_get_delete_other.
Qed.

(** ** updatePackageJson *)

Section ManifestFacts.
Context {host : Host} (env : Env).

Lemma name_is_not_version : lit "name" <> lit "version".
Proof. discriminate. Qed.
Lemma name_is_not_scripts : lit "name" <> lit "scripts".
Proof. discriminate. Qed.
Lemma version_is_not_scripts : lit "version" <> lit "scripts".
Proof. discriminate. Qed.

(** The manifest of an object after the three updates. *)
Lemma update_manifest_object props projectName :
  exists props',
    update_manifest (VObj props) projectName = Some (VObj props')
    /\ assoc_get (lit "name") props' = Some (VStr projectName)
    /\ assoc_get (lit "version") props' = Some (VStr (lit "0.1.0"))
    /\ (forall k, k <> lit "name" -> k <> lit "version" ->
        k <> lit "scripts" -> assoc_get k props' = assoc_get k props)
    /\ match assoc_get (lit "scripts") props with
       | None => assoc_get (lit "scripts") props' = None
       | Some scripts =>
           if (truthy scripts
               && truthy_opt (get_prop scripts (lit "postinstall")))%bool
           then assoc_get (lit "scripts") props'
                = Some (delete_prop scripts (lit "postinstall"))
           else assoc_get (lit "scripts") props' = Some scripts
       end.
Proof.
  unfold update_manifest. cbn [set_prop get_prop].
  set (named := assoc_set (lit "name") (VStr projectName) props).
  set (versioned := assoc_set (lit "version") (VStr (lit "0.1.0")) named).
  assert (Hn : assoc_get (lit "name") versioned = Some (VStr projectName)).
  { unfold versioned. rewrite assoc_get_set_other
      by (intros E; symmetry in E; revert E; apply name_is_not_version).
    apply assoc_get_set. }
  assert (Hv : assoc_get (lit "version") versioned
               = Some (VStr (lit "0.1.0"))) by apply assoc_get_set.
  assert (Ho : forall k, k <> lit "name" -> k <> lit "version" ->
                         assoc_get k versioned = assoc_get k props).
  { intros k N1 N2. unfold versioned, named.
    rewrite !assoc_get_set_other; auto. }
  assert (Hs : assoc_get (lit "scripts") versioned
               = assoc_get (lit "scripts") props).
  { apply Ho; intros E; symmetry in E; revert E;
      [apply name_is_not_scripts | apply version_is_not_scripts]. }
  rewrite Hs.
  destruct (assoc_get (lit "scripts") props) as [scripts|] eqn:S.
  2:{ exists versioned. rewrite Hs. auto 10. }
  destruct (truthy scripts
            && truthy_opt (get_prop scripts (lit "postinstall")))%bool.
  2:{ exists versioned. rewrite Hs. auto 10. }
  eexists. split; [reflexivity|]. cbn [replace_prop].
  repeat split.
  - rewrite assoc_get_replace_other; [exact Hn|].
    intros E; symmetry in E; revert E; apply name_is_not_scripts.
  - rewrite assoc_get_replace_other; [exact Hv|].
    intros E; symmetry in E; revert E; apply version_is_not_scripts.
  - intros k N1 N2 N3. rewrite assoc_get_replace_other by auto. auto.
  - apply assoc_get_replace. apply assoc_has_get. eauto.
Qed.

Lemma updatePackageJson_run projectPath projectName i :
  updatePackageJson env projectPath projectName i =
  if exists_sync env (manifest_path projectPath) then
    match read_json env (manifest_path projectPath) with
    | Some packageJson =>
        match update_manifest packageJson projectName with
        | Some updated =>
            mkRun (Ret (write_ok env (manifest_path projectPath)))
              [WriteFile (manifest_path projectPath) updated;
               if write_ok env (manifest_path projectPath)
               then Log Success UpdatedPackageJson
               else Log Error FailedToUpdatePackageJson] i
        | None => mkRun (Ret false) [Log Error FailedToUpdatePackageJson] i
        end
    | None => mkRun (Ret false) [Log Error FailedToUpdatePackageJson] i
    end
  else mkRun (Ret false) [Log Warning NoPackageJson] i.
Proof.
  unfold updatePackageJson, manifest_path.
  destruct (exists_sync env (path_join projectPath (lit "package.json")));
    [|reflexivity].
  cbn [negb]. unfold try_catch, rewrite_manifest.
  destruct (read_json env (path_join projectPath (lit "package.json")))
    as [packageJson|]; [|reflexivity].
  destruct (update_manifest packageJson projectName) as [updated|];
    [|reflexivity].
  unfold bind, emit, Logger.success, Logger.error, ret, throw.
  cbn [outcome actions stdin_left].
  destruct (write_ok env (path_join projectPath (lit "package.json")));
    reflexivity.
Qed.

(** Whatever the manifest, the step returns: it neither exits nor throws
    nor reads input, and it writes at most the manifest. *)
Lemma updatePackageJson_returns projectPath projectName i :
  exists b acts,
    updatePackageJson env projectPath projectName i = mkRun (Ret b) acts i
    /\ Forall (fun a => is_output a
                        \/ exists v, a = WriteFile (manifest_path projectPath) v)
         acts.
Proof.
  rewrite updatePackageJson_run.
  destruct (exists_sync env (manifest_path projectPath)).
  2:{ do 2 eexists. split; [reflexivity|]. repeat constructor. }
  destruct (read_json env (manifest_path projectPath)) as [pj|].
  2:{ do 2 eexists. split; [reflexivity|]. repeat constructor. }
  destruct (update_manifest pj projectName) as [u|].
  2:{ do 2 eexists. split; [reflexivity|]. repeat constructor. }
  do 2 eexists. split; [reflexivity|].
  constructor; [right; eauto|]. constructor; [left|constructor].
  destruct (write_ok env (manifest_path projectPath)); exact I.
Qed.
End ManifestFacts.

(** ** From the clone to the summary *)

Section ScaffoldFacts.
Context {host : Host} (env : Env).

Lemma scaffold_cleanup_fails projectName projectPath pm t i :
  exec_ok env (clone_command (repoUrl t) projectName) None = true ->
  exists_sync env (git_dir env projectName) = true ->
  rm_ok env (git_dir env projectName) = false ->
  scaffold env projectName projectPath pm t i =
  mkRun (Exit 1) (cleanup_failure_actions env t projectName) i.
Proof.
  intros Hc He Hr. unfold scaffold.
  erewrite bind_run
    by (rewrite cloneTemplate_run, Hc, He, Hr; reflexivity).
  reflexivity.
Qed.

Lemma scaffold_completes projectName projectPath pm t i :
  clone_succeeds env t projectName ->
  scaffold env projectName projectPath pm t i =
  mkRun (Ret tt)
    (clone_actions env t projectName
     ++ actions (updatePackageJson env projectPath projectName i)
     ++ install_actions env projectPath pm
     ++ git_init_actions env projectPath
     ++ summary_actions projectName pm t
          (exec_ok env (install_command pm) (Some projectPath))) i.
Proof.
  intros [Hc Hg]. unfold scaffold.
  assert (C : cloneTemplate env (repoUrl t) projectName i =
              mkRun (Ret {| success := true; error := None |})
                (clone_actions env t projectName) i).
  { rewrite cloneTemplate_run, Hc. unfold clone_actions.
    destruct (exists_sync env (git_dir env projectName)); [|reflexivity].
    destruct Hg as [Hg|Hg]; [discriminate|]. now rewrite Hg. }
  erewrite bind_run by exact C. cbn [success negb].
  destruct (updatePackageJson_returns env projectPath projectName i)
    as (b & acts & U & _).
  erewrite bind_run by exact U.
  erewrite bind_run by apply installDependencies_run.
  erewrite bind_run by apply initializeGitRepository_run.
  rewrite summary_run, U. reflexivity.
Qed.

(** [cli] once the selection has returned: the rest of the run is that of
    [scaffold], which throws nothing. *)
Lemma cli_after_selection args i ctx :
  outcome (select_project env args i) = Ret ctx ->
  forall r,
    scaffold env (pf_projectName (fst ctx)) (pf_projectPath (fst ctx))
      (pf_packageManager (fst ctx)) (snd ctx)
      (stdin_left (select_project env args i)) = r ->
    (forall e, outcome r <> Throw e) ->
    cli env args i =
    mkRun (outcome r) (actions (select_project env args i) ++ actions r)
      (stdin_left r).
Proof.
  intros Hs r Hr Hne. unfold cli, try_catch, main, bind.
  rewrite Hs, Hr.
  cbn [outcome actions stdin_left].
  destruct (outcome r) eqn:O; try reflexivity. now destruct (Hne e).
Qed.
End ScaffoldFacts.

(** ** The clone step *)

(** C1, as the code has it.  When the clone succeeds and the removal of
    [.git] fails, the failure is reported and the run stops there: the
    process exits with code 1 after the two lines about the failure, with
    no manifest rewrite and no later step. *)
Theorem git_cleanup_failure_aborts (host : Host) (env : Env)
    (args i : list jsstring) (ctx : Preflight * Template) :
  outcome (select_project env args i) = Ret ctx ->
  exec_ok env
    (clone_command (repoUrl (snd ctx)) (pf_projectName (fst ctx))) None
  = true ->
  exists_sync env (git_dir env (pf_projectName (fst ctx))) = true ->
  rm_ok env (git_dir env (pf_projectName (fst ctx))) = false ->
  exit_code (cli env args i) = Some 1%Z
  /\ actions (cli env args i)
     = actions (select_project env args i)
       ++ cleanup_failure_actions env (snd ctx) (pf_projectName (fst ctx))
  /\ (forall path v,
        ~ In (WriteFile path v)
            (cleanup_failure_actions env (snd ctx) (pf_projectName (fst ctx))))
  /\ (forall command dir,
        In (Exec command dir)
          (cleanup_failure_actions env (snd ctx) (pf_projectName (fst ctx))) ->
        command
        = clone_command (repoUrl (snd ctx)) (pf_projectName (fst ctx))).
Proof.
  intros Hs Hc He Hr.
  pose proof (scaffold_cleanup_fails env _ (pf_projectPath (fst ctx))
                (pf_packageManager (fst ctx)) _
                (stdin_left (select_project env args i)) Hc He Hr) as Sc.
  rewrite (cli_after_selection env args i ctx Hs _ Sc)
    by (intros e; discriminate).
  repeat split.
  - intros path v Hin. cbn in Hin.
    repeat (destruct Hin as [Hin|Hin]; [discriminate|]). exact Hin.
  - intros command dir Hin. cbn in Hin.
    repeat (destruct Hin as [Hin|Hin];
            [first [discriminate | now inversion Hin]|]).
    destruct Hin.
Qed.

(** A run in which the clone succeeds and [.git] cannot be removed. *)
Lemma git_cleanup_failure_aborts_witness :
  exit_code
    (cli (host := plain_host)
       (sample_env cloned_paths [] [lit "/work/my-dapp/.git"]
          (Some sample_manifest))
       [lit "my-dapp"] [lit "1"])
  = Some 1%Z.
Proof.
  eapply git_cleanup_failure_aborts; vm_compute; reflexivity.
Defined.

(** C1 as stated fails: with a clone that succeeds and a [.git] that cannot
    be removed, the process exits with code 1 and the manifest, which
    exists, is never written. *)
Lemma git_cleanup_failure_is_fatal :
  let env := sample_env cloned_paths [] [lit "/work/my-dapp/.git"]
               (Some sample_manifest) in
  let run := cli (host := plain_host) env [lit "my-dapp"] [lit "1"] in
  exec_ok env
    (clone_command
       (lit "https://github.com/leeroyanesu/vite-stacks-dapp-template.git")
       (lit "my-dapp"))
    None = true
  /\ rm_ok env (lit "/work/my-dapp/.git") = false
  /\ exit_code run = Some 1%Z
  /\ existsb (fun a => match a with WriteFile _ _ => true | _ => false end)
       (actions run) = false
  /\ In (RmSync (lit "/work/my-dapp/.git")) (actions run).
Proof.
  vm_compute. repeat split; try reflexivity. tauto.
Qed.

(** ** The manifest step *)

(** C7, as the code has it.  A manifest that exists and parses to an object
    is written back with its name set to the project name, its version set
    to [0.1.0], every other top-level entry but [scripts] kept, and
    [scripts.postinstall] deleted when [scripts] and the entry are both
    truthy (an entry that is present with a falsy value stays).  Whatever
    the manifest, the step returns without reading input: a missing
    manifest gives one warning, a manifest that cannot be read, parsed or
    updated one error line, and after a clone that went through the run
    goes on with the installation of the dependencies up to the summary. *)
Theorem manifest_rewrite_is_soft (host : Host) (env : Env)
    (projectPath projectName : jsstring) (i : list jsstring) :
  (forall props,
      exists_sync env (manifest_path projectPath) = true ->
      read_json env (manifest_path projectPath) = Some (VObj props) ->
      exists props',
        updatePackageJson env projectPath projectName i
        = mkRun (Ret (write_ok env (manifest_path projectPath)))
            [WriteFile (manifest_path projectPath) (VObj props');
             if write_ok env (manifest_path projectPath)
             then Log Success UpdatedPackageJson
             else Log Error FailedToUpdatePackageJson] i
        /\ assoc_get (lit "name") props' = Some (VStr projectName)
        /\ assoc_get (lit "version") props' = Some (VStr (lit "0.1.0"))
        /\ (forall k, k <> lit "name" -> k <> lit "version" ->
            k <> lit "scripts" -> assoc_get k props' = assoc_get k props)
        /\ match assoc_get (lit "scripts") props with
           | None => assoc_get (lit "scripts") props' = None
           | Some scripts =>
               if (truthy scripts
                   && truthy_opt (get_prop scripts (lit "postinstall")))%bool
               then assoc_get (lit "scripts") props'
                    = Some (delete_prop scripts (lit "postinstall"))
                    /\ get_prop (delete_prop scripts (lit "postinstall"))
                         (lit "postinstall") = None
               else assoc_get (lit "scripts") props' = Some scripts
           end)
  /\ (exists_sync env (manifest_path projectPath) = false ->
      updatePackageJson env projectPath projectName i
      = mkRun (Ret false) [Log Warning NoPackageJson] i)
  /\ (exists_sync env (manifest_path projectPath) = true ->
      read_json env (manifest_path projectPath) = None ->
      updatePackageJson env projectPath projectName i
      = mkRun (Ret false) [Log Error FailedToUpdatePackageJson] i)
  /\ (exists b acts,
        updatePackageJson env projectPath projectName i = mkRun (Ret b) acts i)
  /\ (forall pm t,
        clone_succeeds env t projectName ->
        scaffold env projectName projectPath pm t i
        = mkRun (Ret tt)
            (clone_actions env t projectName
             ++ actions (updatePackageJson env projectPath projectName i)
             ++ install_actions env projectPath pm
             ++ git_init_actions env projectPath
             ++ summary_actions projectName pm t
                  (exec_ok env (install_command pm) (Some projectPath))) i).
Proof.
  repeat apply conj.
  - intros props He Hr.
    destruct (update_manifest_object props projectName)
      as (props' & U & Hn & Hv & Ho & Hs).
    exists props'. rewrite updatePackageJson_run, He, Hr, U.
    repeat apply conj; try assumption; try reflexivity.
    destruct (assoc_get (lit "scripts") props) as [scripts|]; [|exact Hs].
    destruct (truthy scripts
              && truthy_opt (get_prop scripts (lit "postinstall")))%bool;
      [|exact Hs].
    split; [exact Hs | apply get_delete_prop].
  - intros He. now rewrite updatePackageJson_run, He.
  - intros He Hr. now rewrite updatePackageJson_run, He, Hr.
  - destruct (updatePackageJson_returns env projectPath projectName i)
      as (b & acts & E & _). eauto.
  - intros pm t. apply scaffold_completes.
Qed.

(** A run of the step on the sample manifest, whose post-install script is
    deleted. *)
Lemma manifest_rewrite_is_soft_witness :
  exists props',
    updatePackageJson
      (sample_env cloned_paths [] [] (Some sample_manifest))
      (lit "/work/my-dapp") (lit "my-dapp") []
    = mkRun (Ret true)
        [WriteFile (lit "/work/my-dapp/package.json") (VObj props');
         Log Success UpdatedPackageJson] []
    /\ assoc_get (lit "name") props' = Some (VStr (lit "my-dapp"))
    /\ assoc_get (lit "version") props' = Some (VStr (lit "0.1.0"))
    /\ assoc_get (lit "scripts") props'
       = Some (VObj [(lit "dev", VStr (lit "vite"))]).
Proof.
  destruct (proj1 (manifest_rewrite_is_soft plain_host
                     (sample_env cloned_paths [] [] (Some sample_manifest))
                     (lit "/work/my-dapp") (lit "my-dapp") [])
              _ eq_refl eq_refl)
    as (props' & E & Hn & Hv & _ & Hs).
  exists props'. cbv in Hs. destruct Hs as [Hs _].
  split; [exact E|]. split; [exact Hn|]. split; [exact Hv | exact Hs].
Defined.

(** C7 as stated fails: a post-install entry that is present with the empty
    string as its value is written back, not deleted. *)
Lemma empty_postinstall_is_kept :
  updatePackageJson
    (sample_env cloned_paths [] [] (Some empty_postinstall_manifest))
    (lit "/work/my-dapp") (lit "my-dapp") []
  = mkRun (Ret true)
      [WriteFile (lit "/work/my-dapp/package.json")
         (VObj [ (lit "name", VStr (lit "my-dapp"));
                 (lit "scripts", VObj [ (lit "postinstall", VStr []) ]);
                 (lit "version", VStr (lit "0.1.0")) ]);
       Log Success UpdatedPackageJson] [].
Proof. reflexivity. Qed.

(** ** The version-control step *)

Section GitFacts.
Context (env : Env) (dir : jsstring).

Lemma attempt_all_succeed commands :
  Forall (fun c => exec_ok env c (Some dir) = true) commands ->
  attempt env dir commands
  = map (fun c => Exec c (Some dir)) commands
    ++ [SpinnerStop GitInitialized false].
Proof.
  induction 1 as [|c commands Hc _ IH]; [reflexivity|].
  cbn [attempt map app]. now rewrite Hc, IH.
Qed.

Lemma attempt_first_failure before c after :
  Forall (fun c => exec_ok env c (Some dir) = true) before ->
  exec_ok env c (Some dir) = false ->
  attempt env dir (before ++ c :: after)
  = map (fun c => Exec c (Some dir)) (before ++ [c])
    ++ [SpinnerStop FailedToInitializeGit true; Log Warning (FailedAt c)].
Proof.
  intros Hb Hc. induction Hb as [|b before Hb _ IH].
  - cbn. now rewrite Hc.
  - cbn [attempt map app]. now rewrite Hb, IH.
Qed.
End GitFacts.

(** C8.  [initializeGitRepository] runs [git init], [git add .] and
    [git commit] with the default message, in this order, in the project
    directory; the first command that fails is reported and ends the step,
    the later ones are not run; the step returns in every case, and after
    it the run prints the success summary and ends with exit code 0. *)
Theorem git_init_is_soft (host : Host) (env : Env) :
  git_commands
  = [ lit "git init"; lit "git add .";
      lit "git commit -m " ++ dquote ++ CONFIG.DEFAULT_COMMIT_MESSAGE
      ++ dquote ]
  /\ (forall projectPath projectName i,
        initializeGitRepository env projectPath projectName i
        = mkRun
            (Ret (forallb (fun c => exec_ok env c (Some projectPath))
                    git_commands))
            (SpinnerStart InitializingGit
             :: attempt env projectPath git_commands) i)
  /\ (forall projectPath,
        Forall (fun c => exec_ok env c (Some projectPath) = true)
          git_commands ->
        attempt env projectPath git_commands
        = map (fun c => Exec c (Some projectPath)) git_commands
          ++ [SpinnerStop GitInitialized false])
  /\ (forall projectPath before c after,
        git_commands = before ++ c :: after ->
        Forall (fun c => exec_ok env c (Some projectPath) = true) before ->
        exec_ok env c (Some projectPath) = false ->
        attempt env projectPath git_commands
        = map (fun c => Exec c (Some projectPath)) (before ++ [c])
          ++ [SpinnerStop FailedToInitializeGit true;
              Log Warning (FailedAt c)])
  /\ (forall args i ctx,
        outcome (select_project env args i) = Ret ctx ->
        clone_succeeds env (snd ctx) (pf_projectName (fst ctx)) ->
        exit_code (cli env args i) = Some 0%Z
        /\ exists before installed,
             actions (cli env args i)
             = before
               ++ git_init_actions env (pf_projectPath (fst ctx))
               ++ summary_actions (pf_projectName (fst ctx))
                    (pf_packageManager (fst ctx)) (snd ctx) installed
             /\ In (Log Info SuccessBanner)
                  (summary_actions (pf_projectName (fst ctx))
                     (pf_packageManager (fst ctx)) (snd ctx) installed)).
Proof.
  repeat apply conj.
  - reflexivity.
  - intros. apply initializeGitRepository_run.
  - intros projectPath. apply attempt_all_succeed.
  - intros projectPath before c after -> Hb Hc.
    now apply attempt_first_failure.
  - intros args i ctx Hs Hc.
    pose proof (scaffold_completes env _ (pf_projectPath (fst ctx))
                  (pf_packageManager (fst ctx)) _
                  (stdin_left (select_project env args i)) Hc) as Sc.
    rewrite (cli_after_selection env args i ctx Hs _ Sc)
      by (intros e; discriminate).
    split; [reflexivity|]. cbn [actions].
    exists (actions (select_project env args i)
            ++ clone_actions env (snd ctx) (pf_projectName (fst ctx))
            ++ actions (updatePackageJson env (pf_projectPath (fst ctx))
                          (pf_projectName (fst ctx))
                          (stdin_left (select_project env args i)))
            ++ install_actions env (pf_projectPath (fst ctx))
                 (pf_packageManager (fst ctx))),
           (exec_ok env (install_command (pf_packageManager (fst ctx)))
              (Some (pf_projectPath (fst ctx)))).
    split.
    + now rewrite <- !app_assoc.
    + left. reflexivity.
Qed.

(** A run in which [git add .] fails: [git commit] is not run and the
    process still ends with exit code 0. *)
Lemma git_init_is_soft_witness :
  let env := sample_env cloned_paths [lit "git add ."] []
               (Some sample_manifest) in
  exit_code (cli (host := plain_host) env [lit "my-dapp"] [lit "1"])
  = Some 0%Z
  /\ attempt env (lit "/work/my-dapp") git_commands
     = [ Exec (lit "git init") (Some (lit "/work/my-dapp"));
         Exec (lit "git add .") (Some (lit "/work/my-dapp"));
         SpinnerStop FailedToInitializeGit true;
         Log Warning (FailedAt (lit "git add .")) ].
Proof.
  intros env.
  destruct (git_init_is_soft plain_host env) as (_ & _ & _ & Hfail & Hrun).
  split.
  - eapply Hrun; [vm_compute; reflexivity|].
    split; [reflexivity | right; reflexivity].
  - apply (Hfail (lit "/work/my-dapp") [lit "git init"] (lit "git add .")
             [lit "git commit -m " ++ dquote
              ++ CONFIG.DEFAULT_COMMIT_MESSAGE ++ dquote]).
    + reflexivity.
    + constructor; [reflexivity | constructor].
    + reflexivity.
Defined.

(** ** From the flags to the project path *)

Section PreflightFacts.
Context {host : Host} (env : Env).

Lemma builtin_passes :
  passes vite_react_tailwind = url_parses (repoUrl vite_react_tailwind).
Proof.
  unfold passes, validateTemplate.
  change (is_empty (name vite_react_tailwind)
          || is_empty (description vite_react_tailwind)
          || is_empty (repoUrl vite_react_tailwind))%bool with false.
  cbv iota. now destruct (url_parses (repoUrl vite_react_tailwind)).
Qed.

Lemma loadTemplates_run i :
  loadTemplates i =
  if url_parses (repoUrl vite_react_tailwind) then
    mkRun (Ret [vite_react_tailwind]) [] i
  else
    mkRun (Throw no_valid_templates) [skip_warning vite_react_tailwind] i.
Proof.
  unfold loadTemplates. rewrite loadTemplatesFrom_run.
  unfold BUILT_IN_TEMPLATES. cbn [filter]. rewrite builtin_passes.
  now destruct (url_parses (repoUrl vite_react_tailwind)).
Qed.

Lemma preflight_run args i :
  preflight env args i =
  if flag_help (parseFlags args) then mkRun (Exit 0) [Log Info HelpText] i
  else if negb (exec_ok env (lit "node --version") None) then
    mkRun (Exit 1)
      (requirement_probes
       ++ [Log Error NodeRequired;
           Log Warning (InstallNodeFrom CONFIG.NODEJS_URL)]) i
  else if negb (exec_ok env (lit "git --version") None) then
    mkRun (Exit 1)
      (requirement_probes
       ++ [Log Error GitRequired;
           Log Warning (InstallGitFrom CONFIG.GIT_URL)]) i
  else
    match selected_manager env with
    | None =>
        mkRun (Exit 1)
          (requirement_probes
           ++ [Log Error NoPackageManager;
               Log Warning InstallAPackageManager]) i
    | Some pm =>
        if url_parses (repoUrl vite_react_tailwind) then
          if flag_list (parseFlags args) then
            mkRun (Exit 0) (requirement_probes ++ catalog_lines) i
          else
            match project_argument args with
            | None =>
                mkRun (Exit 1) (requirement_probes ++ missing_name_lines) i
            | Some projectName =>
                if is_empty projectName then
                  mkRun (Exit 1)
                    (requirement_probes ++ missing_name_lines) i
                else if valid (isValidProjectName projectName) then
                  mkRun
                    (Ret {| pf_flags := parseFlags args;
                            pf_packageManager := pm;
                            pf_templates := [vite_react_tailwind];
                            pf_projectName := projectName;
                            pf_projectPath :=
                              path_join (cwd env) projectName |})
                    (requirement_probes ++ [Log Info Welcome]) i
                else
                  mkRun (Exit 1)
                    (requirement_probes
                     ++ [Log Error
                           (Reason (reason (isValidProjectName projectName)))])
                    i
            end
        else
          mkRun (Throw no_valid_templates)
            (requirement_probes ++ [skip_warning vite_react_tailwind]) i
    end.
Proof.
  unfold preflight.
  destruct (flag_help (parseFlags args)); [reflexivity|].
  erewrite bind_run by apply checkRequirements_run.
  cbn [node git packageManager]. fold (selected_manager env).
  destruct (exec_ok env (lit "node --version") None); [|reflexivity].
  destruct (exec_ok env (lit "git --version") None); [|reflexivity].
  cbn [negb].
  destruct (selected_manager env) as [pm|]; [|reflexivity].
  pose proof (loadTemplates_run i) as L.
  destruct (url_parses (repoUrl vite_react_tailwind)).
  2:{ erewrite bind_throw by exact L. reflexivity. }
  erewrite bind_run by exact L.
  cbn [outcome actions stdin_left app].
  destruct (flag_list (parseFlags args)); [reflexivity|].
  fold (project_argument args).
  destruct (project_argument args) as [projectName|]; [|reflexivity].
  destruct (is_empty projectName); [reflexivity|].
  destruct (valid (isValidProjectName projectName)); reflexivity.
Qed.

Lemma selected_manager_none :
  selected_manager env = None <->
  (probe_ok env "bun" || probe_ok env "pnpm" || probe_ok env "yarn"
   || probe_ok env "npm")%bool = false.
Proof.
  unfold selected_manager, probe_ok, packageManagers.
  cbn [map find set_available available pm_name].
  destruct (exec_ok env (version_probe (lit "bun")) None);
  destruct (exec_ok env (version_probe (lit "pnpm")) None);
  destruct (exec_ok env (version_probe (lit "yarn")) None);
  destruct (exec_ok env (version_probe (lit "npm")) None);
  cbn; split; congruence.
Qed.
End PreflightFacts.

Section CliFacts.
Context {host : Host} (env : Env).

(** [cli] when [preflight] does not return. *)
Lemma cli_preflight_stops args i :
  (forall pf, outcome (preflight env args i) <> Ret pf) ->
  cli env args i =
  match outcome (preflight env args i) with
  | Throw e =>
      mkRun (outcome (handleError e (stdin_left (preflight env args i))))
        (actions (preflight env args i)
         ++ actions (handleError e (stdin_left (preflight env args i))))
        (stdin_left (handleError e (stdin_left (preflight env args i))))
  | Exit c =>
      mkRun (Exit c) (actions (preflight env args i))
        (stdin_left (preflight env args i))
  | _ =>
      mkRun Pending (actions (preflight env args i))
        (stdin_left (preflight env args i))
  end.
Proof.
  intros H. unfold cli, try_catch, main, select_project.
  rewrite (bind_not_ret
             (pf <- preflight env args;;
              resolveCollision env (pf_flags pf) (pf_projectName pf)
                (pf_projectPath pf);;
              selectedTemplate <- selectTemplate (pf_templates pf);;
              Logger.info (CreatingProjectWith (name selectedTemplate));;
              ret (pf, selectedTemplate))).
  - rewrite (bind_not_ret (preflight env args)) by exact H.
    cbn [outcome actions stdin_left].
    destruct (outcome (preflight env args i)); reflexivity.
  - intros ctx. rewrite (bind_not_ret (preflight env args)) by exact H.
    apply recast_not_ret.
Qed.

Lemma cli_list args i :
  flag_help (parseFlags args) = false ->
  flag_list (parseFlags args) = true ->
  cli env args i =
  if negb (exec_ok env (lit "node --version") None) then
    mkRun (Exit 1)
      (requirement_probes
       ++ [Log Error NodeRequired;
           Log Warning (InstallNodeFrom CONFIG.NODEJS_URL)]) i
  else if negb (exec_ok env (lit "git --version") None) then
    mkRun (Exit 1)
      (requirement_probes
       ++ [Log Error GitRequired;
           Log Warning (InstallGitFrom CONFIG.GIT_URL)]) i
  else
    match selected_manager env with
    | None =>
        mkRun (Exit 1)
          (requirement_probes
           ++ [Log Error NoPackageManager;
               Log Warning InstallAPackageManager]) i
    | Some _ =>
        if url_parses (repoUrl vite_react_tailwind) then
          mkRun (Exit 0) (requirement_probes ++ catalog_lines) i
        else
          mkRun (Exit 1)
            (requirement_probes
             ++ [skip_warning vite_react_tailwind;
                 Log Error (ErrorMessage (lit "No valid templates found"));
                 Log Dim (ErrorCode (lit "NO_TEMPLATES"))]) i
    end.
Proof.
  intros Hh Hl.
  pose proof (preflight_run env args i) as P. rewrite Hh, Hl in P.
  rewrite cli_preflight_stops; rewrite P.
  - destruct (exec_ok env (lit "node --version") None); [|reflexivity].
    destruct (exec_ok env (lit "git --version") None); [|reflexivity].
    cbn [negb].
    destruct (selected_manager env); [|reflexivity].
    destruct (url_parses (repoUrl vite_react_tailwind)); [reflexivity|].
    cbn. reflexivity.
  - intros pf.
    destruct (exec_ok env (lit "node --version") None); [|discriminate].
    destruct (exec_ok env (lit "git --version") None); [|discriminate].
    cbn [negb].
    destruct (selected_manager env); [|discriminate].
    destruct (url_parses (repoUrl vite_react_tailwind)); discriminate.
Qed.
End CliFacts.

(** ** The list flag *)

(** C2, as the code has it.  The help flag ends the run with exit code 0
    before anything else.  The list flag does not: the requirement probe
    runs first, and the catalog is printed, with exit code 0, only when the
    runtime, the version-control client and a package manager are there and
    the template registry is valid; otherwise the exit code is 1.  In both
    cases nothing but the six probes is run and no input is read. *)
Theorem list_flag_after_requirements (host : Host) (env : Env)
    (args i : list jsstring) :
  (flag_help (parseFlags args) = true ->
   cli env args i = mkRun (Exit 0) [Log Info HelpText] i)
  /\ (flag_help (parseFlags args) = false ->
      flag_list (parseFlags args) = true ->
      (exists rest,
          actions (cli env args i) = requirement_probes ++ rest
          /\ Forall is_output rest)
      /\ stdin_left (cli env args i) = i
      /\ ((prerequisites_met env
           && url_parses (repoUrl vite_react_tailwind))%bool = true ->
          cli env args i
          = mkRun (Exit 0) (requirement_probes ++ catalog_lines) i)
      /\ ((prerequisites_met env
           && url_parses (repoUrl vite_react_tailwind))%bool = false ->
          exit_code (cli env args i) = Some 1%Z)).
Proof.
  split.
  - intros Hh. rewrite cli_preflight_stops; rewrite preflight_run, Hh.
    + reflexivity.
    + discriminate.
  - intros Hh Hl. rewrite (cli_list env args i Hh Hl).
    unfold prerequisites_met.
    pose proof (selected_manager_none env) as N.
    destruct (exec_ok env (lit "node --version") None).
    2:{ repeat apply conj; try reflexivity; try discriminate.
        eexists. split; [reflexivity | repeat constructor]. }
    destruct (exec_ok env (lit "git --version") None).
    2:{ repeat apply conj; try reflexivity; try discriminate.
        eexists. split; [reflexivity | repeat constructor]. }
    cbn [negb andb].
    destruct (selected_manager env) as [pm|].
    2:{ rewrite (proj1 N eq_refl).
        repeat apply conj; try reflexivity; try discriminate.
        eexists. split; [reflexivity | repeat constructor]. }
    destruct (probe_ok env "bun" || probe_ok env "pnpm"
              || probe_ok env "yarn" || probe_ok env "npm")%bool.
    2:{ destruct N as [_ N]. discriminate (N eq_refl). }
    cbn [andb].
    destruct (url_parses (repoUrl vite_react_tailwind)).
    + repeat apply conj; try reflexivity; try discriminate.
      eexists. split; [reflexivity | repeat constructor].
    + repeat apply conj; try reflexivity; try discriminate.
      eexists. split; [reflexivity | repeat constructor].
Qed.

(** A run with the list flag in which every prerequisite is there. *)
Lemma list_flag_after_requirements_witness :
  cli (host := plain_host) (sample_env [] [] [] None)
    [lit "my-dapp"; lit "--list"] []
  = mkRun (Exit 0) (requirement_probes ++ catalog_lines) [].
Proof.
  apply (proj2 (list_flag_after_requirements plain_host
                  (sample_env [] [] [] None)
                  [lit "my-dapp"; lit "--list"] [])); reflexivity.
Defined.

(** C2 as stated fails: with the list flag and no runtime, the probe runs
    and the process exits with code 1. *)
Lemma list_flag_without_runtime_fails :
  let env := sample_env [] [lit "node --version"] [] None in
  flag_list (parseFlags [lit "--list"]) = true
  /\ cli (host := plain_host) env [lit "--list"] []
     = mkRun (Exit 1)
         (requirement_probes
          ++ [Log Error NodeRequired;
              Log Warning (InstallNodeFrom CONFIG.NODEJS_URL)]) []
  /\ exit_code (cli (host := plain_host) env [lit "--list"] []) = Some 1%Z.
Proof. repeat split. Qed.

(** ** The directory collision *)

Section CollisionFacts.
Context {host : Host} (env : Env).

Lemma affirmative_spec answer :
  affirmative answer = true <-> In (trim (toLowerCase answer)) yes_words.
Proof.
  unfold affirmative, yes_words. rewrite orb_true_iff, !str_eqb_eq.
  cbn [In]. intuition congruence.
Qed.

Lemma resolveCollision_force flags projectName projectPath i :
  exists_sync env projectPath = true ->
  flag_force flags = true ->
  resolveCollision env flags projectName projectPath i =
  if rm_ok env projectPath then
    mkRun (Ret tt) [RmSync projectPath; Log Success RemovedExistingDirectory] i
  else mkRun (Throw JsError) [RmSync projectPath] i.
Proof.
  intros He Hf. unfold resolveCollision, rmSync. rewrite He, Hf.
  unfold Logger.success, bind, emit, ret, throw.
  cbn [outcome actions stdin_left].
  destruct (rm_ok env projectPath); reflexivity.
Qed.

Lemma resolveCollision_ask flags projectName projectPath answer rest :
  exists_sync env projectPath = true ->
  flag_force flags = false ->
  resolveCollision env flags projectName projectPath (answer :: rest) =
  if affirmative answer then
    if rm_ok env projectPath then
      mkRun (Ret tt)
        [Log Error (DirectoryExists projectName);
         Question RemoveAndContinue; RmSync projectPath;
         Log Success RemovedExistingDirectory] rest
    else
      mkRun (Throw JsError)
        [Log Error (DirectoryExists projectName);
         Question RemoveAndContinue; RmSync projectPath] rest
  else
    mkRun (Exit 1)
      [Log Error (DirectoryExists projectName);
       Question RemoveAndContinue; Log Error Aborted] rest.
Proof.
  intros He Hf. unfold resolveCollision, rmSync, confirmAction.
  rewrite He, Hf.
  unfold Logger.success, Logger.error, bind, emit, ret, throw, question.
  cbn [outcome actions stdin_left].
  destruct (affirmative answer); [|reflexivity].
  cbn [outcome actions stdin_left].
  destruct (rm_ok env projectPath); reflexivity.
Qed.

(** What [preflight] has done and found when it returns. *)
Lemma preflight_returns args i pf :
  outcome (preflight env args i) = Ret pf ->
  preflight env args i
  = mkRun (Ret pf) (requirement_probes ++ [Log Info Welcome]) i
  /\ pf_flags pf = parseFlags args
  /\ pf_templates pf = [vite_react_tailwind]
  /\ project_argument args = Some (pf_projectName pf)
  /\ valid (isValidProjectName (pf_projectName pf)) = true
  /\ pf_projectPath pf = path_join (cwd env) (pf_projectName pf).
Proof.
  rewrite preflight_run.
  destruct (flag_help (parseFlags args)); [discriminate|].
  destruct (exec_ok env (lit "node --version") None); [|discriminate].
  destruct (exec_ok env (lit "git --version") None); [|discriminate].
  cbn [negb].
  destruct (selected_manager env); [|discriminate].
  destruct (url_parses (repoUrl vite_react_tailwind)); [|discriminate].
  destruct (flag_list (parseFlags args)); [discriminate|].
  destruct (project_argument args) as [projectName|]; [|discriminate].
  destruct (is_empty projectName); [discriminate|].
  destruct (valid (isValidProjectName projectName)) eqn:V; [|discriminate].
  cbn [outcome]. intros E. injection E as <-. cbn. auto 10.
Qed.

Lemma probes_do_not_mutate :
  existsb is_mutation (requirement_probes ++ [Log Info Welcome]) = false.
Proof. reflexivity. Qed.

Lemma selectTemplate_first ts i :
  exists later, actions (selectTemplate ts i) = Log Info SelectATemplate :: later.
Proof.
  unfold selectTemplate, Logger.info.
  erewrite bind_run by reflexivity. cbn [actions app]. now eexists.
Qed.

(** [cli] when the collision step stops the run with an exit. *)
Lemma cli_collision_exit args i pf c acts i' :
  outcome (preflight env args i) = Ret pf ->
  resolveCollision env (pf_flags pf) (pf_projectName pf)
    (pf_projectPath pf) i = mkRun (Exit c) acts i' ->
  cli env args i
  = mkRun (Exit c) (requirement_probes ++ [Log Info Welcome] ++ acts) i'.
Proof.
  intros Hp Hc. destruct (preflight_returns args i pf Hp) as (P & _).
  assert (S : select_project env args i
              = mkRun (Exit c)
                  ((requirement_probes ++ [Log Info Welcome]) ++ acts) i').
  { unfold select_project. erewrite bind_run by exact P.
    erewrite bind_exit by exact Hc. reflexivity. }
  unfold cli. rewrite try_catch_no_throw; unfold main.
  - erewrite bind_exit by exact S. now rewrite <- app_assoc.
  - erewrite bind_exit by exact S. intros e. discriminate.
Qed.

(** The actions of [cli] begin with those of each step that returns. *)
Lemma cli_collision_returns args i pf acts i' :
  outcome (preflight env args i) = Ret pf ->
  resolveCollision env (pf_flags pf) (pf_projectName pf)
    (pf_projectPath pf) i = mkRun (Ret tt) acts i' ->
  exists later,
    actions (cli env args i)
    = requirement_probes ++ [Log Info Welcome] ++ acts
      ++ Log Info SelectATemplate :: later.
Proof.
  intros Hp Hc. destruct (preflight_returns args i pf Hp) as (P & _).
  unfold cli.
  destruct (try_catch_actions (main env args) handleError i) as (t1 & ->).
  unfold main.
  destruct (bind_actions (select_project env args)
              (fun ctx =>
                 scaffold env (pf_projectName (fst ctx))
                   (pf_projectPath (fst ctx))
                   (pf_packageManager (fst ctx)) (snd ctx)) i) as (t2 & ->).
  unfold select_project. erewrite bind_run by exact P.
  erewrite bind_run by exact Hc. cbn [actions].
  destruct (bind_actions (selectTemplate (pf_templates pf))
              (fun selectedTemplate =>
                 Logger.info (CreatingProjectWith (name selectedTemplate));;
                 ret (pf, selectedTemplate)) i') as (t3 & ->).
  destruct (selectTemplate_first (pf_templates pf) i') as (t4 & ->).
  exists (t4 ++ t3 ++ t2 ++ t1).
  rewrite <- !app_assoc. reflexivity.
Qed.
End CollisionFacts.

(** C6.  When the target directory exists: with the force flag it is
    removed at once, without a question and without reading input, and the
    run goes on with the template selection; without the force flag one
    question is asked, and the answer is a yes exactly when its lowercase,
    trimmed form is [y] or [yes]; any other answer ends the run with exit
    code 1, and up to that point the program has run nothing but the
    version probes and has removed or written nothing. *)
Theorem collision_force_or_confirm (host : Host) (env : Env) :
  (forall flags projectName projectPath i,
      exists_sync env projectPath = true ->
      flag_force flags = true ->
      resolveCollision env flags projectName projectPath i
      = if rm_ok env projectPath then
          mkRun (Ret tt)
            [RmSync projectPath; Log Success RemovedExistingDirectory] i
        else mkRun (Throw JsError) [RmSync projectPath] i)
  /\ (forall answer,
        affirmative answer = true
        <-> trim (toLowerCase answer) = lit "y"
            \/ trim (toLowerCase answer) = lit "yes")
  /\ (forall flags projectName projectPath answer rest,
        exists_sync env projectPath = true ->
        flag_force flags = false ->
        resolveCollision env flags projectName projectPath (answer :: rest)
        = if affirmative answer then
            if rm_ok env projectPath then
              mkRun (Ret tt)
                [Log Error (DirectoryExists projectName);
                 Question RemoveAndContinue; RmSync projectPath;
                 Log Success RemovedExistingDirectory] rest
            else
              mkRun (Throw JsError)
                [Log Error (DirectoryExists projectName);
                 Question RemoveAndContinue; RmSync projectPath] rest
          else
            mkRun (Exit 1)
              [Log Error (DirectoryExists projectName);
               Question RemoveAndContinue; Log Error Aborted] rest)
  /\ (forall args i pf,
        outcome (preflight env args i) = Ret pf ->
        exists_sync env (pf_projectPath pf) = true ->
        flag_force (parseFlags args) = true ->
        rm_ok env (pf_projectPath pf) = true ->
        exists later,
          actions (cli env args i)
          = requirement_probes
            ++ [Log Info Welcome; RmSync (pf_projectPath pf);
                Log Success RemovedExistingDirectory;
                Log Info SelectATemplate]
            ++ later)
  /\ (forall args answer rest pf,
        outcome (preflight env args (answer :: rest)) = Ret pf ->
        exists_sync env (pf_projectPath pf) = true ->
        flag_force (parseFlags args) = false ->
        affirmative answer = false ->
        cli env args (answer :: rest)
        = mkRun (Exit 1)
            (requirement_probes
             ++ [Log Info Welcome;
                 Log Error (DirectoryExists (pf_projectName pf));
                 Question RemoveAndContinue; Log Error Aborted]) rest
        /\ existsb is_mutation (actions (cli env args (answer :: rest)))
           = false).
Proof.
  repeat apply conj.
  - intros. now apply resolveCollision_force.
  - intros answer. rewrite affirmative_spec. unfold yes_words. cbn [In].
    intuition congruence.
  - intros. now apply resolveCollision_ask.
  - intros args i pf Hp He Hf Hr.
    destruct (preflight_returns env args i pf Hp) as (_ & Fl & _).
    pose proof (resolveCollision_force env (pf_flags pf) (pf_projectName pf)
                  (pf_projectPath pf) i He) as R.
    rewrite Fl, Hf, Hr in R. specialize (R eq_refl). rewrite <- Fl in R.
    destruct (cli_collision_returns env args i pf _ _ Hp R) as (later & E).
    exists later. rewrite E. reflexivity.
  - intros args answer rest pf Hp He Hf Ha.
    destruct (preflight_returns env args _ pf Hp) as (_ & Fl & _).
    pose proof (resolveCollision_ask env (pf_flags pf) (pf_projectName pf)
                  (pf_projectPath pf) answer rest He) as R.
    rewrite Fl, Hf, Ha in R. specialize (R eq_refl). rewrite <- Fl in R.
    rewrite (cli_collision_exit env args _ pf _ _ _ Hp R).
    split; reflexivity.
Qed.

(** A run on an existing directory without the force flag, answered
    [maybe]. *)
Lemma collision_force_or_confirm_witness :
  let env := sample_env [lit "/work/my-dapp"] [] [] None in
  exit_code (cli (host := plain_host) env [lit "my-dapp"] [lit "maybe"])
  = Some 1%Z
  /\ existsb is_mutation
       (actions (cli (host := plain_host) env [lit "my-dapp"] [lit "maybe"]))
     = false.
Proof.
  intros env.
  destruct (collision_force_or_confirm plain_host env)
    as (_ & _ & _ & _ & Habort).
  edestruct (Habort [lit "my-dapp"] (lit "maybe") []) as [E M];
    [vm_compute; reflexivity | reflexivity | reflexivity | reflexivity |].
  split; [now rewrite E | exact M].
Defined.

(** * Further properties of the program *)

(** ** How a run ends *)



Section OutcomeFacts.
Context {host : Host} (env : Env).





Lemma scaffold_clone_fails projectName projectPath pm t i :
  exec_ok env (clone_command (repoUrl t) projectName) None = false ->
  scaffold env projectName projectPath pm t i
  = mkRun (Exit 1) (clone_failure_actions t projectName) i.
Proof.
  intros Hc. unfold scaffold.
  erewrite bind_run by (rewrite cloneTemplate_run, Hc; reflexivity).
  reflexivity.
Qed.



End OutcomeFacts.


(** ** Before the project exists *)

Section PreflightMore.
Context {host : Host} (env : Env).

Lemma probes_then_output_do_not_mutate rest :
  existsb is_mutation rest = false ->
  existsb is_mutation (requirement_probes ++ rest) = false.
Proof. intros H. rewrite existsb_app, H. reflexivity. Qed.

Lemma preflight_frame_facts args i :
  stdin_left (preflight env args i) = i
  /\ existsb is_mutation (actions (preflight env args i)) = false
  /\ forall prompt, ~ In (Question prompt) (actions (preflight env args i)).
Proof.
  rewrite preflight_run.
  assert (Q : forall prompt rest,
             (forall a, In a rest -> exists l m, a = Log l m) ->
             ~ In (Question prompt) (requirement_probes ++ rest)).
  { intros prompt rest Hr Hin. apply in_app_or in Hin as [Hin|Hin].
    - cbn in Hin. repeat (destruct Hin as [Hin|Hin]; [discriminate|]).
      exact Hin.
    - destruct (Hr _ Hin) as (l & m & E). discriminate. }
  assert (L : forall rest : list Action,
             Forall (fun a => exists l m, a = Log l m) rest ->
             forall a, In a rest -> exists l m, a = Log l m).
  { intros rest F. now apply Forall_forall. }
  repeat match goal with
         | |- context [if ?b then _ else _] => destruct b
         | |- context [match ?o with Some _ => _ | None => _ end] => destruct o
         end;
    cbn [outcome actions stdin_left];
    (split; [reflexivity|]);
    (split;
     [ first [ reflexivity
             | apply probes_then_output_do_not_mutate; reflexivity ]
     | intros prompt;
       first [ apply Q, L; repeat constructor; eexists; eexists; reflexivity
             | intros Hin; cbn in Hin;
               repeat (destruct Hin as [Hin|Hin]; [discriminate|]);
               exact Hin ] ]).
Qed.

Lemma parseFlags_eq args args' :
  (forall f, In f known_flags -> includes args f = includes args' f) ->
  parseFlags args = parseFlags args'.
Proof.
  intros H. unfold parseFlags.
  rewrite !H by (cbn; auto 10). reflexivity.
Qed.

Lemma preflight_depends_on args args' i :
  parseFlags args = parseFlags args' ->
  project_argument args = project_argument args' ->
  preflight env args i = preflight env args' i.
Proof. intros F P. rewrite !preflight_run, F, P. reflexivity. Qed.

Lemma cli_depends_on args args' i :
  preflight env args i = preflight env args' i ->
  cli env args i = cli env args' i.
Proof.
  intros P.
  assert (S : select_project env args i = select_project env args' i).
  { unfold select_project, bind. now rewrite P. }
  assert (Mn : main env args i = main env args' i).
  { unfold main, bind. now rewrite S. }
  unfold cli, try_catch. now rewrite Mn.
Qed.
End PreflightMore.

(** X2.  Up to the point where the project name has been accepted, the
    program reads no input and asks no question, and it runs nothing but the
    six version probes: nothing is removed, written or cloned. *)
Theorem preflight_changes_nothing (host : Host) (env : Env)
    (args i : list jsstring) :
  stdin_left (preflight env args i) = i
  /\ existsb is_mutation (actions (preflight env args i)) = false
  /\ forall prompt, ~ In (Question prompt) (actions (preflight env args i)).
Proof. apply preflight_frame_facts. Qed.

(** X3.  Without the help flag the three prerequisites are checked in the
    order runtime, version-control client, package manager, after all six
    probes have run, and the first one missing decides the message: a
    missing runtime is reported whatever the other probes gave, a missing
    client only when the runtime is there, a missing package manager only
    when both are.  Each ends the run with exit code 1. *)
Theorem requirements_first_failure_wins (host : Host) (env : Env)
    (args i : list jsstring) :
  flag_help (parseFlags args) = false ->
  (exec_ok env (lit "node --version") None = false ->
   cli env args i
   = mkRun (Exit 1)
       (requirement_probes
        ++ [Log Error NodeRequired;
            Log Warning (InstallNodeFrom CONFIG.NODEJS_URL)]) i)
  /\ (exec_ok env (lit "node --version") None = true ->
      exec_ok env (lit "git --version") None = false ->
      cli env args i
      = mkRun (Exit 1)
          (requirement_probes
           ++ [Log Error GitRequired;
               Log Warning (InstallGitFrom CONFIG.GIT_URL)]) i)
  /\ (exec_ok env (lit "node --version") None = true ->
      exec_ok env (lit "git --version") None = true ->
      probe_ok env "bun" = false -> probe_ok env "pnpm" = false ->
      probe_ok env "yarn" = false -> probe_ok env "npm" = false ->
      cli env args i
      = mkRun (Exit 1)
          (requirement_probes
           ++ [Log Error NoPackageManager;
               Log Warning InstallAPackageManager]) i).
Proof.
  intros Hh. pose proof (preflight_run env args i) as P. rewrite Hh in P.
  repeat apply conj.
  - intros Hn. rewrite Hn in P. cbn [negb] in P.
    rewrite cli_preflight_stops; rewrite P; [reflexivity | discriminate].
  - intros Hn Hg. rewrite Hn, Hg in P. cbn [negb] in P.
    rewrite cli_preflight_stops; rewrite P; [reflexivity | discriminate].
  - intros Hn Hg H1 H2 H3 H4. rewrite Hn, Hg in P. cbn [negb] in P.
    assert (N : selected_manager env = None).
    { apply selected_manager_none. now rewrite H1, H2, H3, H4. }
    rewrite N in P.
    rewrite cli_preflight_stops; rewrite P; [reflexivity | discriminate].
Qed.

(** A run with a project name, a runtime and no version-control client. *)
Lemma requirements_first_failure_wins_witness :
  cli (host := plain_host) (sample_env [] [lit "git --version"] [] None)
    [lit "my-dapp"] []
  = mkRun (Exit 1)
      (requirement_probes
       ++ [Log Error GitRequired;
           Log Warning (InstallGitFrom CONFIG.GIT_URL)]) [].
Proof.
  apply (requirements_first_failure_wins plain_host
           (sample_env [] [lit "git --version"] [] None)
           [lit "my-dapp"] [] eq_refl); reflexivity.
Defined.

(** X4.  With every prerequisite there and neither the help nor the list
    flag, a command line without a first argument that is not a flag, or
    with the empty string as that argument, ends with the usage lines and
    exit code 1; an argument that [isValidProjectName] rejects ends with the
    validator's reason and exit code 1.  In both cases nothing but the
    probes has run. *)
Theorem project_name_is_required (host : Host) (env : Env)
    (args i : list jsstring) :
  flag_help (parseFlags args) = false ->
  flag_list (parseFlags args) = false ->
  prerequisites_met env = true ->
  url_parses (repoUrl vite_react_tailwind) = true ->
  (project_argument args = None \/ project_argument args = Some [] ->
   cli env args i
   = mkRun (Exit 1) (requirement_probes ++ missing_name_lines) i)
  /\ (forall projectName,
        project_argument args = Some projectName ->
        projectName <> [] ->
        valid (isValidProjectName projectName) = false ->
        cli env args i
        = mkRun (Exit 1)
            (requirement_probes
             ++ [Log Error (Reason (reason (isValidProjectName projectName)))])
            i).
Proof.
  intros Hh Hl Hp Hu. pose proof (preflight_run env args i) as P.
  unfold prerequisites_met in Hp.
  apply andb_true_iff in Hp as [Hp Hm]. apply andb_true_iff in Hp as [Hn Hg].
  rewrite Hh, Hl, Hn, Hg, Hu in P. cbn [negb] in P.
  destruct (selected_manager env) as [pm|] eqn:S.
  2:{ apply selected_manager_none in S. congruence. }
  split.
  - intros [N | N]; rewrite N in P; cbn [is_empty] in P;
      (rewrite cli_preflight_stops; rewrite P; [reflexivity | discriminate]).
  - intros projectName N Ne V. rewrite N, V in P.
    destruct projectName as [|c r]; [congruence|]. cbn [is_empty] in P.
    rewrite cli_preflight_stops; rewrite P; [reflexivity | discriminate].
Qed.

(** A run whose project name starts with a dot. *)
Lemma project_name_is_required_witness :
  cli (host := plain_host) (sample_env [] [] [] None) [lit ".hidden"] []
  = mkRun (Exit 1)
      (requirement_probes
       ++ [Log Error
             (Reason (Some (lit "Project name cannot start with . or _")))])
      [].
Proof.
  apply (proj2 (project_name_is_required plain_host
                  (sample_env [] [] [] None) [lit ".hidden"] []
                  eq_refl eq_refl eq_refl eq_refl) (lit ".hidden"));
    [reflexivity | discriminate | reflexivity].
Defined.

Section FlagFacts.

Lemma includes_insert before x after f :
  x <> f ->
  includes (before ++ x :: after) f = includes (before ++ after) f.
Proof.
  intros N. unfold includes. rewrite !existsb_app. cbn [existsb].
  rewrite (str_eqb_neq f x) by congruence. reflexivity.
Qed.

Lemma project_argument_insert before x after :
  startsWith x (lit "-") = true ->
  project_argument (before ++ x :: after) = project_argument (before ++ after).
Proof.
  intros H. unfold project_argument. rewrite !filter_app. cbn [filter].
  now rewrite H.
Qed.
End FlagFacts.

(** X5.  An argument that starts with a hyphen and is none of the six flags
    is ignored, wherever it stands: the run is the same as without it.  No
    unknown option is ever reported. *)
Theorem unknown_options_are_ignored (host : Host) (env : Env)
    (before after i : list jsstring) (x : jsstring) :
  startsWith x (lit "-") = true ->
  ~ In x known_flags ->
  cli env (before ++ x :: after) i = cli env (before ++ after) i.
Proof.
  intros Hx Hk. apply cli_depends_on, preflight_depends_on.
  - apply parseFlags_eq. intros f Hf. apply includes_insert.
    intros ->. contradiction.
  - now apply project_argument_insert.
Qed.

(** The option [--verbose] between the project name and [--list]. *)
Lemma unknown_options_are_ignored_witness :
  cli (host := plain_host) (sample_env [] [] [] None)
    ([lit "my-dapp"] ++ lit "--verbose" :: [lit "--list"]) []
  = cli (host := plain_host) (sample_env [] [] [] None)
      ([lit "my-dapp"] ++ [lit "--list"]) [].
Proof.
  apply unknown_options_are_ignored; [reflexivity|].
  cbn. intros H.
  repeat (destruct H as [H|H]; [discriminate|]). exact H.
Defined.

(** ** After the selection *)

(** X6.  A clone command that fails is fatal and nothing is cleaned up or
    attempted after it: the run reports the failure and the repository to
    check and exits with code 1; no path is removed, no manifest is written
    and neither the installation nor the version-control initialisation is
    run. *)
Theorem clone_failure_is_fatal (host : Host) (env : Env)
    (args i : list jsstring) (ctx : Preflight * Template) :
  outcome (select_project env args i) = Ret ctx ->
  exec_ok env
    (clone_command (repoUrl (snd ctx)) (pf_projectName (fst ctx))) None
  = false ->
  cli env args i
  = mkRun (Exit 1)
      (actions (select_project env args i)
       ++ clone_failure_actions (snd ctx) (pf_projectName (fst ctx)))
      (stdin_left (select_project env args i))
  /\ existsb (fun a => match a with
                       | RmSync _ | WriteFile _ _ => true
                       | _ => false
                       end)
       (clone_failure_actions (snd ctx) (pf_projectName (fst ctx))) = false
  /\ forall command dir,
       In (Exec command dir)
         (clone_failure_actions (snd ctx) (pf_projectName (fst ctx))) ->
       command = clone_command (repoUrl (snd ctx)) (pf_projectName (fst ctx))
       /\ dir = None.
Proof.
  intros Hs Hc.
  pose proof (scaffold_clone_fails env _ (pf_projectPath (fst ctx))
                (pf_packageManager (fst ctx)) _
                (stdin_left (select_project env args i)) Hc) as Sc.
  rewrite (cli_after_selection env args i ctx Hs _ Sc)
    by (intros e; discriminate).
  repeat apply conj; try reflexivity.
  intros command dir Hin. cbn in Hin.
  repeat (destruct Hin as [Hin|Hin];
          [first [discriminate | now inversion Hin]|]).
  destruct Hin.
Qed.

(** A run whose clone command fails. *)
Lemma clone_failure_is_fatal_witness :
  exit_code
    (cli (host := plain_host)
       (sample_env []
          [clone_command (repoUrl vite_react_tailwind) (lit "my-dapp")]
          [] None)
       [lit "my-dapp"] [lit "1"])
  = Some 1%Z.
Proof.
  pose proof (clone_failure_is_fatal plain_host
                (sample_env []
                   [clone_command (repoUrl vite_react_tailwind)
                      (lit "my-dapp")] [] None)
                [lit "my-dapp"] [lit "1"]) as H.
  edestruct H as (E & _); [vm_compute; reflexivity | reflexivity |].
  now rewrite E.
Defined.

Section SummaryFacts.

Lemma note_in_summary projectName pm t installed :
  In (Log Warning DependenciesFailedNote)
    (summary_actions projectName pm t installed)
  <-> installed = false.
Proof.
  unfold summary_actions. destruct installed; cbn [app In]; split; intros H.
  - repeat (destruct H as [H|H]; [discriminate|]). destruct H.
  - discriminate.
  - reflexivity.
  - do 4 right. now left.
Qed.
End SummaryFacts.

(** X7.  A failed installation of the dependencies is soft.  After a clone
    that went through, the install command of the selected package manager
    is run in the project directory; whether it fails or not, the
    version-control step follows, the summary is printed and the exit code
    is 0; the summary carries the note about installing by hand exactly
    when the install command failed. *)
Theorem install_failure_is_soft (host : Host) (env : Env)
    (args i : list jsstring) (ctx : Preflight * Template) :
  outcome (select_project env args i) = Ret ctx ->
  clone_succeeds env (snd ctx) (pf_projectName (fst ctx)) ->
  let projectName := pf_projectName (fst ctx) in
  let projectPath := pf_projectPath (fst ctx) in
  let pm := pf_packageManager (fst ctx) in
  let installed := exec_ok env (install_command pm) (Some projectPath) in
  exit_code (cli env args i) = Some 0%Z
  /\ actions (cli env args i)
     = actions (select_project env args i)
       ++ clone_actions env (snd ctx) projectName
       ++ actions (updatePackageJson env projectPath projectName
                     (stdin_left (select_project env args i)))
       ++ install_actions env projectPath pm
       ++ git_init_actions env projectPath
       ++ summary_actions projectName pm (snd ctx) installed
  /\ In (Exec (pm_name pm ++ lit " " ++ installCommand pm) (Some projectPath))
       (install_actions env projectPath pm)
  /\ (In (Log Warning DependenciesFailedNote)
        (summary_actions projectName pm (snd ctx) installed)
      <-> installed = false).
Proof.
  intros Hs Hc projectName projectPath pm installed.
  pose proof (scaffold_completes env _ projectPath pm _
                (stdin_left (select_project env args i)) Hc) as Sc.
  rewrite (cli_after_selection env args i ctx Hs _ Sc)
    by (intros e; discriminate).
  repeat apply conj; try reflexivity.
  - unfold install_actions. cbn. auto.
  - apply note_in_summary.
  - apply note_in_summary.
Qed.

(** A run in which [bun install] fails. *)
Lemma install_failure_is_soft_witness :
  exit_code
    (cli (host := plain_host)
       (sample_env cloned_paths [lit "bun install"] []
          (Some sample_manifest))
       [lit "my-dapp"] [lit "1"])
  = Some 0%Z.
Proof.
  pose proof (install_failure_is_soft plain_host
                (sample_env cloned_paths [lit "bun install"] []
                   (Some sample_manifest))
                [lit "my-dapp"] [lit "1"]) as H.
  edestruct H as (E & _); [vm_compute; reflexivity | |exact E].
  split; [reflexivity | right; reflexivity].
Defined.

(** ** More on the manifest *)

Section ManifestMore.

Lemma assoc_set_same k v props :
  assoc_get k props = Some v -> assoc_set k v props = props.
Proof.
  intros G. unfold assoc_set.
  assert (H : assoc_has k props = true) by (apply assoc_has_get; eauto).
  rewrite H. clear H.
  induction props as [|[k' v'] props IH]; [discriminate|].
  cbn in *. destruct (str_eqb k k'); [congruence|].
  now rewrite IH.
Qed.

Lemma update_manifest_fixpoint props projectName props' :
  update_manifest (VObj props) projectName = Some (VObj props') ->
  update_manifest (VObj props') projectName = Some (VObj props').
Proof.
  intros U.
  destruct (update_manifest_object props projectName)
    as (q & U' & Hn & Hv & _ & Hs).
  rewrite U in U'. injection U' as <-.
  unfold update_manifest. cbn [set_prop get_prop].
  rewrite (assoc_set_same _ _ _ Hn), (assoc_set_same _ _ _ Hv).
  destruct (assoc_get (lit "scripts") props) as [scripts|].
  - destruct (truthy scripts
              && truthy_opt (get_prop scripts (lit "postinstall")))%bool
      eqn:G; rewrite Hs.
    + rewrite get_delete_prop. cbn [truthy_opt]. now rewrite andb_false_r.
    + now rewrite G.
  - now rewrite Hs.
Qed.
End ManifestMore.

(** X8.  The update of the manifest is idempotent on objects: applied to a
    manifest it has already produced, with the same project name, it
    returns that manifest unchanged. *)
Theorem update_manifest_idempotent (props props' : list (jsstring * jsvalue))
    (projectName : jsstring) :
  update_manifest (VObj props) projectName = Some (VObj props') ->
  update_manifest (VObj props') projectName = Some (VObj props').
Proof. apply update_manifest_fixpoint. Qed.

(** The sample manifest, updated twice. *)
Lemma update_manifest_idempotent_witness :
  update_manifest
    (VObj [ (lit "name", VStr (lit "my-dapp"));
            (lit "version", VStr (lit "0.1.0"));
            (lit "scripts", VObj [(lit "dev", VStr (lit "vite"))]) ])
    (lit "my-dapp")
  = Some (VObj [ (lit "name", VStr (lit "my-dapp"));
                 (lit "version", VStr (lit "0.1.0"));
                 (lit "scripts", VObj [(lit "dev", VStr (lit "vite"))]) ]).
Proof.
  apply (update_manifest_idempotent
           [ (lit "name", VStr (lit "vite-stacks-dapp-template"));
             (lit "version", VStr (lit "1.4.2"));
             (lit "scripts",
              VObj [ (lit "dev", VStr (lit "vite"));
                     (lit "postinstall", VStr (lit "node setup.js")) ]) ]).
  reflexivity.
Defined.

(** X9.  A manifest that parses to [null], a boolean, a number or a string
    is never written: the assignment of the name throws, the step prints one
    error line and returns.  A manifest that parses to an array is written
    back with its items unchanged. *)
Theorem manifest_of_wrong_shape (host : Host) (env : Env)
    (projectPath projectName : jsstring) (i : list jsstring) :
  (forall v,
      is_primitive v = true ->
      exists_sync env (manifest_path projectPath) = true ->
      read_json env (manifest_path projectPath) = Some v ->
      updatePackageJson env projectPath projectName i
      = mkRun (Ret false) [Log Error FailedToUpdatePackageJson] i)
  /\ (forall items props,
        exists_sync env (manifest_path projectPath) = true ->
        read_json env (manifest_path projectPath) = Some (VArr items props) ->
        exists props',
          actions (updatePackageJson env projectPath projectName i)
          = [WriteFile (manifest_path projectPath) (VArr items props');
             if write_ok env (manifest_path projectPath)
             then Log Success UpdatedPackageJson
             else Log Error FailedToUpdatePackageJson]).
Proof.
  split.
  - intros v Hv He Hr. rewrite updatePackageJson_run, He, Hr.
    destruct v; try discriminate; reflexivity.
  - intros items props He Hr. rewrite updatePackageJson_run, He, Hr.
    unfold update_manifest. cbn [set_prop get_prop].
    destruct (assoc_get (lit "scripts")
                (assoc_set (lit "version") (VStr (lit "0.1.0"))
                   (assoc_set (lit "name") (VStr projectName) props)))
      as [scripts|].
    + destruct (truthy scripts
                && truthy_opt (get_prop scripts (lit "postinstall")))%bool;
        cbn [replace_prop actions]; eexists; reflexivity.
    + eexists; reflexivity.
Qed.

(** A manifest whose content is the number 5. *)
Lemma manifest_of_wrong_shape_witness :
  updatePackageJson
    (sample_env cloned_paths [] [] (Some (VNum 5%float)))
    (lit "/work/my-dapp") (lit "my-dapp") []
  = mkRun (Ret false) [Log Error FailedToUpdatePackageJson] [].
Proof.
  apply (proj1 (manifest_of_wrong_shape plain_host
                  (sample_env cloned_paths [] [] (Some (VNum 5%float)))
                  (lit "/work/my-dapp") (lit "my-dapp") [])
           (VNum 5%float)); reflexivity.
Defined.

(** ** More on the validators and the templates *)

Lemma is_empty_spec (s : jsstring) : is_empty s = true <-> s = [].
Proof. destruct s; cbn; split; congruence. Qed.

(** X10.  [validateTemplate] accepts a template exactly when its name, its
    description and its URL are not empty and the URL parses; a template
    with an empty field is rejected for that, before its URL is looked at,
    and one with three fields and a URL that does not parse is rejected for
    the URL. *)
Theorem validateTemplate_accepts_iff (host : Host) (t : Template) :
  (valid (validateTemplate t) = true <->
     name t <> [] /\ description t <> [] /\ repoUrl t <> []
     /\ url_parses (repoUrl t) = true)
  /\ (name t = [] \/ description t = [] \/ repoUrl t = [] ->
      validateTemplate t
      = invalid "Template must have name, description, and repoUrl")
  /\ (name t <> [] -> description t <> [] -> repoUrl t <> [] ->
      url_parses (repoUrl t) = false ->
      validateTemplate t = invalid "Template repoUrl must be a valid URL")
  /\ (valid (validateTemplate t) = true -> reason (validateTemplate t) = None).
Proof.
  unfold validateTemplate.
  pose proof (is_empty_spec (name t)) as N.
  pose proof (is_empty_spec (description t)) as D.
  pose proof (is_empty_spec (repoUrl t)) as U.
  destruct (is_empty (name t)), (is_empty (description t)),
    (is_empty (repoUrl t)), (url_parses (repoUrl t));
    cbn; intuition (try congruence; try discriminate).
Qed.

Section TemplateMore.
Context {host : Host}.

Lemma select_loop_empty i :
  outcome (select_loop [] i) = Pending /\ stdin_left (select_loop [] i) = [].
Proof.
  induction i as [|a i IH]; [split; reflexivity|].
  cbn [select_loop].
  assert (P : pick [] (parseInt10 (trim a)) = None).
  { unfold pick. destruct (parseInt10 (trim a)) as [c|]; [|reflexivity].
    cbn [List.length Z.of_nat].
    destruct (Z.leb_spec 1 c); [|reflexivity].
    destruct (Z.leb_spec c 0); [lia | reflexivity]. }
  rewrite P. exact IH.
Qed.
End TemplateMore.

(** X11.  The templates [loadTemplates] returns are never an empty list,
    each of them is an entry of the registry and each passes
    [validateTemplate]: a template offered for selection has a name, a
    description and a URL that parses. *)
Theorem loaded_templates_are_valid (host : Host) (registry ts : list Template)
    (i : list jsstring) :
  outcome (loadTemplatesFrom registry i) = Ret ts ->
  ts <> []
  /\ forall t, In t ts ->
       In t registry
       /\ name t <> [] /\ description t <> [] /\ repoUrl t <> []
       /\ url_parses (repoUrl t) = true.
Proof.
  rewrite loadTemplatesFrom_run. cbn [outcome].
  destruct (filter passes registry) as [|t0 kept] eqn:F; [discriminate|].
  intros E. injection E as <-. split; [discriminate|].
  intros t Hin. rewrite <- F in Hin. apply filter_In in Hin as [Hin Hp].
  split; [exact Hin|].
  unfold passes, validateTemplate in Hp.
  pose proof (is_empty_spec (name t)) as N.
  pose proof (is_empty_spec (description t)) as D.
  pose proof (is_empty_spec (repoUrl t)) as U.
  destruct (is_empty (name t)), (is_empty (description t)),
    (is_empty (repoUrl t)), (url_parses (repoUrl t));
    cbn in Hp; try discriminate.
  repeat split; intros H; [apply N in H | apply D in H | apply U in H];
    discriminate.
Qed.

(** The built-in registry under a host that accepts its URL. *)
Lemma loaded_templates_are_valid_witness :
  [vite_react_tailwind] <> []
  /\ forall t, In t [vite_react_tailwind] ->
       In t BUILT_IN_TEMPLATES
       /\ name t <> [] /\ description t <> [] /\ repoUrl t <> []
       /\ url_parses (Host := plain_host) (repoUrl t) = true.
Proof.
  apply (loaded_templates_are_valid plain_host BUILT_IN_TEMPLATES
           [vite_react_tailwind] []).
  reflexivity.
Defined.

(** X12.  Over an empty list of templates [selectTemplate] never returns:
    no answer is in range, every line of input is consumed and rejected,
    and the selection is left waiting. *)
Theorem selectTemplate_empty_never_returns (host : Host) (i : list jsstring) :
  outcome (selectTemplate [] i) = Pending
  /\ stdin_left (selectTemplate [] i) = []
  /\ invalid_choices (actions (selectTemplate [] i)) = List.length i.
Proof.
  destruct (selectTemplate_run [] i) as (menu & Hm & -> & -> & ->).
  destruct (select_loop_empty i) as [-> ->]. repeat split.
  rewrite invalid_choices_app, (invalid_choices_menu _ Hm).
  clear. induction i as [|a i IH]; [reflexivity|].
  cbn [select_loop].
  assert (P : pick [] (parseInt10 (trim a)) = None).
  { unfold pick. destruct (parseInt10 (trim a)) as [c|]; [|reflexivity].
    cbn [List.length Z.of_nat].
    destruct (Z.leb_spec 1 c); [|reflexivity].
    destruct (Z.leb_spec c 0); [lia | reflexivity]. }
  rewrite P. cbn [actions List.length]. cbn in IH |- *.
  unfold invalid_choices in *. cbn. now rewrite IH.
Qed.

(** ** More on project names *)

Section NameMore.
Context {host : Host}.

Lemma slug_unit_range c :
  is_slug_unit c = true ->
  (97 <= c <= 122)%N \/ (48 <= c <= 57)%N \/ c = 45%N.
Proof.
  unfold is_slug_unit, is_lower, is_digit, is_hyphen, between, hyphen.
  intros H.
  repeat match type of H with
         | orb _ _ = true => apply orb_true_iff in H as [H|H]
         | andb _ _ = true => apply andb_true_iff in H as [? ?]
         end;
    repeat match goal with
           | H : N.leb _ _ = true |- _ => apply N.leb_le in H
           | H : N.eqb _ _ = true |- _ => apply N.eqb_eq in H
           end; auto.
Qed.

Lemma name_unit_range c :
  is_name_unit c = true ->
  (97 <= c <= 122)%N \/ (65 <= c <= 90)%N \/ (48 <= c <= 57)%N
  \/ c = 45%N \/ c = 95%N.
Proof.
  unfold is_name_unit, is_lower, is_upper, is_digit, is_hyphen,
    is_underscore, between, hyphen, underscore.
  intros H.
  repeat match type of H with
         | orb _ _ = true => apply orb_true_iff in H as [H|H]
         | andb _ _ = true => apply andb_true_iff in H as [? ?]
         end;
    repeat match goal with
           | H : N.leb _ _ = true |- _ => apply N.leb_le in H
           | H : N.eqb _ _ = true |- _ => apply N.eqb_eq in H
           end; auto 10.
Qed.

Ltac outside_ranges :=
  repeat match goal with
         | |- orb _ _ = false => apply orb_false_intro
         | |- N.eqb _ _ = false => apply N.eqb_neq; lia
         | |- andb (N.leb ?a ?c) (N.leb ?c ?b) = false =>
             apply andb_false_iff;
             first [ left; apply N.leb_gt; lia | right; apply N.leb_gt; lia ]
         end.

Lemma name_unit_not_whitespace c :
  is_name_unit c = true -> is_whitespace c = false.
Proof.
  intros H. apply name_unit_range in H.
  unfold is_whitespace, between.
  destruct H as [H|[H|[H|[H|H]]]]; outside_ranges.
Qed.

Lemma slug_unit_name_unit c : is_slug_unit c = true -> is_name_unit c = true.
Proof.
  unfold is_slug_unit, is_name_unit. intros H.
  apply orb_true_iff in H as [H|H];
    [apply orb_true_iff in H as [H|H]|]; rewrite H;
    repeat rewrite ?orb_true_r, ?orb_true_l; reflexivity.
Qed.

Lemma slug_not_reserved s :
  forallb is_slug_unit s = true -> includes CONFIG.RESERVED_NAMES s = false.
Proof.
  intros H. destruct (includes CONFIG.RESERVED_NAMES s) eqn:I; [|reflexivity].
  apply includes_In in I. cbn in I.
  repeat (destruct I as [I|I]; [subst s; vm_compute in H; discriminate|]).
  destruct I.
Qed.

(** What an accepted name is made of. *)
Lemma valid_name_facts projectName :
  valid (isValidProjectName projectName) = true ->
  projectName <> []
  /\ List.length projectName <= CONFIG.MAX_PROJECT_NAME_LENGTH
  /\ (forall c, In c projectName -> is_name_unit c = true)
  /\ startsWith projectName (lit ".") = false
  /\ startsWith projectName (lit "_") = false
  /\ includes CONFIG.RESERVED_NAMES (toLowerCase projectName) = false.
Proof.
  unfold isValidProjectName.
  destruct (is_empty projectName
            || Nat.eqb (List.length (trim projectName)) 0)%bool;
    [discriminate|].
  destruct (Nat.ltb_spec CONFIG.MAX_PROJECT_NAME_LENGTH
              (List.length projectName)); [discriminate|].
  destruct (startsWith projectName (lit ".")) eqn:S1; [discriminate|].
  destruct (startsWith projectName (lit "_")) eqn:S2; [discriminate|].
  cbn [orb].
  destruct (name_pattern_test projectName) eqn:T; [|discriminate].
  cbn [negb].
  destruct (includes CONFIG.RESERVED_NAMES (toLowerCase projectName)) eqn:R;
    [discriminate|].
  intros _. apply name_pattern_test_spec in T as [Ne All]. auto 10.
Qed.
End NameMore.

(** X13.  What [sanitizeProjectName] returns is a name that
    [isValidProjectName] accepts, provided it is not empty and not longer
    than 214: it is not blank, does not start with [.] or [_], holds only
    units of [[a-z0-9-]] and is none of the reserved names, each of which
    holds a dot or an underscore. *)
Theorem sanitized_name_is_accepted (host : Host) (name : jsstring) :
  sanitizeProjectName name <> [] ->
  List.length (sanitizeProjectName name) <= 214 ->
  isValidProjectName (sanitizeProjectName name)
  = {| valid := true; reason := None |}.
Proof.
  destruct (sanitize_shape name) as (Hslug & _ & Hfirst & _).
  set (out := sanitizeProjectName name) in *. intros Ne Len.
  assert (All : forallb is_slug_unit out = true).
  { apply forallb_forall. now apply Forall_forall. }
  unfold isValidProjectName.
  destruct out as [|c r] eqn:O; [congruence|].
  assert (Hc : is_slug_unit c = true) by now inversion Hslug.
  cbn [is_empty orb]. rewrite trim_blank. cbn [forallb].
  rewrite (name_unit_not_whitespace c (slug_unit_name_unit c Hc)).
  cbn [andb].
  destruct (Nat.ltb_spec CONFIG.MAX_PROJECT_NAME_LENGTH (List.length (c :: r)));
    [unfold CONFIG.MAX_PROJECT_NAME_LENGTH in *; lia|].
  change (lit ".") with [46%N]. change (lit "_") with [95%N].
  cbn [startsWith]. rewrite !andb_true_r.
  pose proof (slug_unit_range c Hc) as Rg.
  replace (N.eqb c 46) with false by (symmetry; apply N.eqb_neq; lia).
  replace (N.eqb c 95) with false by (symmetry; apply N.eqb_neq; lia).
  cbn [orb].
  assert (T : name_pattern_test (c :: r) = true).
  { apply name_pattern_test_spec. split; [discriminate|].
    intros d Hd. apply slug_unit_name_unit.
    rewrite Forall_forall in Hslug. now apply Hslug. }
  rewrite T. cbn [negb].
  unfold toLowerCase. rewrite lower_from_slug by exact Hslug.
  now rewrite (slug_not_reserved _ All).
Qed.

(** The name [My Cool App!] and what it is sanitized to. *)
Lemma sanitized_name_is_accepted_witness :
  isValidProjectName (host := plain_host)
    (sanitizeProjectName (host := plain_host) (lit "My Cool App!"))
  = {| valid := true; reason := None |}.
Proof.
  apply sanitized_name_is_accepted; [discriminate | vm_compute; lia].
Defined.

(** X14.  A project name that [main] accepts is the first argument that does
    not start with a hyphen; it is between 1 and 214 units long and made of
    ASCII letters, digits, hyphens and underscores only, so it holds no
    quote, no white space, no slash and no dot, and the project path is the
    working directory joined with it. *)
Theorem accepted_project_name_is_plain (host : Host) (env : Env)
    (args i : list jsstring) (pf : Preflight) :
  outcome (preflight env args i) = Ret pf ->
  project_argument args = Some (pf_projectName pf)
  /\ startsWith (pf_projectName pf) (lit "-") = false
  /\ 1 <= List.length (pf_projectName pf) <= 214
  /\ (forall c, In c (pf_projectName pf) ->
        is_name_unit c = true /\ is_whitespace c = false
        /\ c <> 34%N /\ c <> 47%N /\ c <> 92%N /\ c <> 46%N)
  /\ pf_projectPath pf = path_join (cwd env) (pf_projectName pf).
Proof.
  intros Hp.
  destruct (preflight_returns env args i pf Hp) as (_ & _ & _ & Pa & V & Pp).
  destruct (valid_name_facts _ V) as (Ne & Len & All & _).
  split; [exact Pa|]. split.
  { unfold project_argument in Pa.
    destruct (filter (fun arg => negb (startsWith arg (lit "-"))) args)
      as [|a l] eqn:F; [discriminate|].
    injection Pa as ->.
    assert (In (pf_projectName pf)
              (filter (fun arg => negb (startsWith arg (lit "-"))) args))
      by (rewrite F; now left).
    apply filter_In in H as [_ H]. now apply negb_true_iff in H. }
  split.
  { unfold CONFIG.MAX_PROJECT_NAME_LENGTH in Len.
    destruct (pf_projectName pf); [congruence | cbn in *; lia]. }
  split; [|exact Pp].
  intros c Hc. pose proof (name_unit_range c (All c Hc)) as Rg.
  split; [now apply All|].
  split; [apply name_unit_not_whitespace; now apply All|].
  repeat split; lia.
Qed.

(** The name of a run that gets past the validation. *)
Lemma accepted_project_name_is_plain_witness :
  exists pf,
    outcome (preflight (host := plain_host) (sample_env [] [] [] None)
               [lit "--force"; lit "my-dapp"] []) = Ret pf
    /\ pf_projectPath pf = path_join (lit "/work") (pf_projectName pf).
Proof.
  eexists.
  match goal with
  | |- ?A /\ _ => assert (H : A) by (vm_compute; reflexivity)
  end.
  split; [exact H|].
  exact (proj2 (proj2 (proj2 (proj2
           (accepted_project_name_is_plain plain_host _ _ _ _ H))))).
Defined.

(** ** Numbers and their numerals *)

Section NumeralFacts.

Lemma digits_value_stop acc rest :
  starts_with_digit rest = false -> digits_value acc rest = acc.
Proof. destruct rest as [|c r]; cbn; [reflexivity | now intros ->]. Qed.

Lemma digits_value_acc d : forall acc rest,
  starts_with_digit rest = false ->
  digits_value (Z.pos acc) (uint_units d ++ rest)
  = Z.pos (Pos.of_uint_acc d acc).
Proof.
  induction d; intros acc rest Hr; cbn [uint_units app Pos.of_uint_acc];
    [now apply digits_value_stop | ..];
    cbn [digits_value]; change (is_digit _) with true; cbv iota;
    rewrite <- (IHd _ rest Hr); f_equal;
    match goal with
    | |- context [Z.of_N ?e] =>
        let v := eval vm_compute in (Z.of_N e) in change (Z.of_N e) with v
    end; lia.
Qed.

Lemma digits_value_uint d : forall rest,
  starts_with_digit rest = false ->
  digits_value 0 (uint_units d ++ rest) = Z.of_N (Pos.of_uint d).
Proof.
  induction d; intros rest Hr; cbn [uint_units app Pos.of_uint];
    [now apply digits_value_stop | ..];
    cbn [digits_value]; change (is_digit _) with true; cbv iota;
    match goal with
    | |- context [Z.of_N ?e] =>
        let v := eval vm_compute in (Z.of_N e) in change (Z.of_N e) with v
    end; cbn [Z.mul Z.add].
  - now apply IHd.
  - exact (digits_value_acc d 1 rest Hr).
  - exact (digits_value_acc d 2 rest Hr).
  - exact (digits_value_acc d 3 rest Hr).
  - exact (digits_value_acc d 4 rest Hr).
  - exact (digits_value_acc d 5 rest Hr).
  - exact (digits_value_acc d 6 rest Hr).
  - exact (digits_value_acc d 7 rest Hr).
  - exact (digits_value_acc d 8 rest Hr).
  - exact (digits_value_acc d 9 rest Hr).
Qed.

Lemma uint_units_digits d :
  Forall (fun c => is_digit c = true) (uint_units d).
Proof. induction d; cbn; constructor; auto. Qed.

Lemma uint_units_nonnil d : d <> Decimal.Nil -> uint_units d <> [].
Proof. destruct d; cbn; congruence. Qed.

Lemma digit_not_whitespace c : is_digit c = true -> is_whitespace c = false.
Proof.
  intros H. apply name_unit_not_whitespace.
  unfold is_name_unit. rewrite H. now rewrite !orb_true_r.
Qed.

Lemma numeral_head n rest :
  exists c r, uint_units (N.to_uint n) ++ rest = c :: r
              /\ is_digit c = true.
Proof.
  pose proof (uint_units_digits (N.to_uint n)) as F.
  destruct (uint_units (N.to_uint n)) as [|c r] eqn:E.
  - exfalso. revert E. apply uint_units_nonnil.
    destruct n; [discriminate | apply DecimalPos.Unsigned.to_uint_nonnil].
  - exists c, (r ++ rest). split; [reflexivity | now inversion F].
Qed.

(** [parseInt] reads the numeral of a natural number back, whatever follows
    it that is no digit. *)
Lemma parseInt10_numeral n rest :
  starts_with_digit rest = false ->
  parseInt10 (uint_units (N.to_uint n) ++ rest) = Some (Z.of_N n).
Proof.
  intros Hr. unfold parseInt10, trimStart.
  destruct (numeral_head n rest) as (c & r & E & Hc).
  rewrite E. cbn [dropWhile]. rewrite (digit_not_whitespace c Hc).
  assert (R : (48 <= c <= 57)%N).
  { unfold is_digit, between in Hc. apply andb_true_iff in Hc as [A B].
    apply N.leb_le in A, B. lia. }
  replace (N.eqb c 45) with false by (symmetry; apply N.eqb_neq; lia).
  replace (N.eqb c 43) with false by (symmetry; apply N.eqb_neq; lia).
  cbn [starts_with_digit]. rewrite Hc, <- E.
  rewrite digits_value_uint by exact Hr.
  change (Pos.of_uint (N.to_uint n)) with (N.of_uint (N.to_uint n)).
  rewrite DecimalN.Unsigned.of_to. f_equal. lia.
Qed.

Lemma parseInt10_number z rest :
  starts_with_digit rest = false ->
  parseInt10 (number_to_string z ++ rest) = Some z.
Proof.
  intros Hr. unfold number_to_string.
  destruct (Z.ltb_spec z 0).
  - unfold parseInt10, trimStart. cbn [app dropWhile].
    change (is_whitespace 45%N) with false. cbv iota.
    change (N.eqb 45%N 45%N) with true. cbv iota.
    destruct (numeral_head (Z.abs_N z) rest) as (c & r & E & Hc).
    assert (S : starts_with_digit (uint_units (N.to_uint (Z.abs_N z)) ++ rest)
                = true) by (rewrite E; exact Hc).
    rewrite S, digits_value_uint by exact Hr.
    change (Pos.of_uint (N.to_uint (Z.abs_N z)))
      with (N.of_uint (N.to_uint (Z.abs_N z))).
    rewrite DecimalN.Unsigned.of_to, N2Z.inj_abs_N. f_equal. lia.
  - rewrite parseInt10_numeral by exact Hr. f_equal. lia.
Qed.

Lemma trim_no_whitespace s :
  Forall (fun c => is_whitespace c = false) s -> trim s = s.
Proof.
  intros F. unfold trim, trimEnd, trimStart.
  assert (A : dropWhile is_whitespace s = s).
  { apply dropWhile_id. destruct F; [exact I | assumption]. }
  assert (B : dropWhile is_whitespace (rev s) = rev s).
  { apply dropWhile_id. apply Forall_rev in F.
    destruct F; [exact I | assumption]. }
  rewrite A, B. apply rev_involutive.
Qed.

Lemma trim_numeral n :
  trim (uint_units (N.to_uint n)) = uint_units (N.to_uint n).
Proof.
  apply trim_no_whitespace.
  eapply Forall_impl; [|apply uint_units_digits].
  intros c. apply digit_not_whitespace.
Qed.
End NumeralFacts.



(** X16.  Answering the selection with the decimal numeral of an entry's
    position in the menu, counted from 1, selects that entry: the numeral
    the menu prints is read back by [parseInt] as the same number. *)
Theorem menu_number_selects_entry (templates : list Template)
    (k : nat) (t : Template) (rest : list jsstring) :
  nth_error templates k = Some t ->
  outcome (selectTemplate templates
             (number_to_string (Z.of_nat (k + 1)) :: rest)) = Ret t
  /\ stdin_left (selectTemplate templates
                   (number_to_string (Z.of_nat (k + 1)) :: rest)) = rest.
Proof.
  intros Hk.
  assert (Lt : k < List.length templates)
    by (apply nth_error_Some; congruence).
  destruct (selectTemplate_run templates
              (number_to_string (Z.of_nat (k + 1)) :: rest))
    as (menu & _ & -> & _ & ->).
  cbn [select_loop].
  assert (P : parseInt10 (trim (number_to_string (Z.of_nat (k + 1))))
              = Some (Z.of_nat (k + 1))).
  { unfold number_to_string.
    destruct (Z.ltb_spec (Z.of_nat (k + 1)) 0); [lia|].
    rewrite trim_numeral.
    rewrite <- (app_nil_r (uint_units _)).
    rewrite parseInt10_numeral by reflexivity. f_equal. lia. }
  rewrite P.
  destruct (pick_in_range templates (Z.of_nat (k + 1)) ltac:(lia))
    as (t' & Hn & ->).
  replace (Z.to_nat (Z.of_nat (k + 1) - 1)) with k in Hn by lia.
  assert (t' = t) by congruence. subst t'. split; reflexivity.
Qed.

(** The only entry of the built-in menu, selected by [1]. *)
Lemma menu_number_selects_entry_witness :
  outcome (selectTemplate BUILT_IN_TEMPLATES
             [lit "1"; lit "2"]) = Ret vite_react_tailwind.
Proof.
  apply (menu_number_selects_entry BUILT_IN_TEMPLATES 0
           vite_react_tailwind [lit "2"] eq_refl).
Defined.

(** ** The terminal: [Logger], [isInteractive] and [Spinner] *)

Section TerminalFacts.
Import Terminal.

Lemma fire_running h text s :
  timer_text h (timers s) = Some text ->
  fire h s
  = (mkSpinner (interval s) (Nat.modulo (currentFrame s + 1) 10)
               (timers s) (next_handle s),
     frame_writes (currentFrame s) text 1).
Proof.
  intros H. unfold fire. rewrite H. reflexivity.
Qed.

Lemma fire_times_running h text n : forall s,
  timer_text h (timers s) = Some text ->
  (currentFrame s < 10)%nat ->
  fire_times h n s
  = (mkSpinner (interval s) (Nat.modulo (currentFrame s + n) 10)
               (timers s) (next_handle s),
     flat_map (frame_writes (currentFrame s) text) (seq 1 n)).
Proof.
  induction n as [|n IH]; intros s H Hc.
  - destruct s as [i c ts nh].
    cbn [fire_times interval currentFrame timers next_handle] in *.
    rewrite Nat.add_0_r, Nat.mod_small by exact Hc. reflexivity.
  - cbn [fire_times]. rewrite (fire_running h text s H).
    set (s1 := mkSpinner _ _ _ _).
    assert (H1 : timer_text h (timers s1) = Some text) by exact H.
    assert (Hc1 : (currentFrame s1 < 10)%nat)
      by (apply Nat.mod_upper_bound; lia).
    assert (Shift : forall c k,
               frame_writes (Nat.modulo (c + 1) 10) text k
               = frame_writes c text (S k)).
    { intros c k. unfold frame_writes.
      rewrite Nat.Div0.add_mod_idemp_l.
      replace (c + 1 + k)%nat with (c + S k)%nat by lia. reflexivity. }
    rewrite (IH s1 H1 Hc1). cbn [seq flat_map]. f_equal.
    + subst s1. cbn [interval currentFrame timers next_handle].
      f_equal. rewrite Nat.Div0.add_mod_idemp_l. f_equal. lia.
    + f_equal. rewrite <- (seq_shift n 1).
      rewrite !flat_map_concat_map, map_map. f_equal. apply map_ext.
      intros k. subst s1. cbn [currentFrame]. apply Shift.
Qed.

Lemma frame_at_in_range i : (i < 10)%nat -> In (frame_at i) SPINNER_FRAMES.
Proof.
  intros H. do 10 (destruct i as [|i]; [cbn; tauto|]). lia.
Qed.

Lemma timer_text_cleared h ts : timer_text h (clearInterval h ts) = None.
Proof.
  induction ts as [|[h' text] ts IH]; [reflexivity|].
  cbn. destruct (Nat.eqb h h') eqn:E; cbn; [exact IH|].
  rewrite E. exact IH.
Qed.

(** X17.  A spinner started on an interactive terminal shows the first
    frame; each run of its timer then returns to the start of the line
    and shows the next of the ten frames, in a cycle, so the frame shown is
    always one of the ten; once the spinner is stopped its timer writes
    nothing more. *)
Theorem spinner_frames_cycle (p : Process) (text : jsstring) (n : nat) :
  isInteractive p = true ->
  let started := start p text new_Spinner in
  let running := fire_times 0 n (fst started) in
  snd started = [StdoutWrite (frame_chunk 0 text)]
  /\ interval (fst started) = Some 0%nat
  /\ currentFrame (fst running) = Nat.modulo n 10
  /\ snd running = flat_map (frame_writes 0 text) (seq 1 n)
  /\ In (frame_at (currentFrame (fst running))) SPINNER_FRAMES
  /\ (forall successText error,
        snd (fire 0 (fst (stop p successText error (fst running)))) = []).
Proof.
  intros Hi started running.
  assert (Es : started
               = (mkSpinner (Some 0%nat) 0 [(0%nat, text)] 1,
                  [StdoutWrite (frame_chunk 0 text)])).
  { unfold started, start. rewrite Hi. reflexivity. }
  assert (Er : running
               = (mkSpinner (Some 0%nat) (Nat.modulo n 10)
                            [(0%nat, text)] 1,
                  flat_map (frame_writes 0 text) (seq 1 n))).
  { unfold running. rewrite Es. cbn [fst].
    rewrite (fire_times_running 0 text n
               (mkSpinner (Some 0%nat) 0 [(0%nat, text)] 1) eq_refl)
      by (cbn; lia).
    reflexivity. }
  rewrite Es, Er. cbn [fst snd interval currentFrame].
  repeat split.
  - apply frame_at_in_range. apply Nat.mod_upper_bound. lia.
  - intros successText error. unfold stop, fire.
    cbn [interval timers currentFrame next_handle].
    destruct (negb (isInteractive p)); cbn [fst timers];
      rewrite timer_text_cleared; reflexivity.
Qed.

(** Thirteen runs of the timer: the frame shown is the fourth. *)
Lemma spinner_frames_cycle_witness :
  currentFrame
    (fst (fire_times 0 13
            (fst (start (mkProcess true None None None None None)
                        (lit "Cloning") new_Spinner)))) = 3%nat.
Proof.
  exact (proj1 (proj2 (proj2
           (spinner_frames_cycle (mkProcess true None None None None None)
              (lit "Cloning") 13 eq_refl)))).
Defined.

(** X18.  Stopping a spinner with a text prints the line [Logger.success]
    or [Logger.error] would print, after a return to the start of the line
    on an interactive terminal; except that on an interactive terminal
    with [NO_COLOR] set the spinner's line is still coloured, while the
    logger's is plain. *)
Theorem spinner_stop_line (p : Process) (text : jsstring) (error : bool)
    (s : Spinner) :
  text <> [] ->
  let logged := if error then Logger.error p text
                else Logger.success p text in
  let icon := if error then cross_mark else check_mark in
  let color := if error then red else green in
  (isInteractive p = false ->
   snd (stop p (Some text) error s) = [logged])
  /\ (isInteractive p = true -> truthy_text (NO_COLOR p) = false ->
      snd (stop p (Some text) error s)
      = [StdoutWrite carriage_return; logged])
  /\ (isInteractive p = true -> truthy_text (NO_COLOR p) = true ->
      logged = ConsoleLog (icon ++ lit " " ++ text)
      /\ snd (stop p (Some text) error s)
         = [StdoutWrite carriage_return;
            ConsoleLog (color ++ icon ++ lit " " ++ text ++ reset)]).
Proof.
  intros Ht logged icon color.
  destruct text as [|c t]; [congruence|].
  unfold stop, isInteractive, logged, icon, color,
    Logger.error, Logger.success, Logger.info, Logger.shouldUseColors.
  destruct (isTTY p), (isCI p), (truthy_text (NO_COLOR p)), error;
    cbn; repeat split; intros; try discriminate; reflexivity.
Qed.

(** A terminal with [NO_COLOR=1]: the spinner's line is coloured. *)
Lemma spinner_stop_line_witness :
  snd (stop (mkProcess true (Some (lit "1")) None None None None)
            (Some (lit "done")) false new_Spinner)
  = [StdoutWrite carriage_return;
     ConsoleLog (green ++ check_mark ++ lit " done" ++ reset)]
  /\ Logger.success (mkProcess true (Some (lit "1")) None None None None)
                    (lit "done")
     = ConsoleLog (check_mark ++ lit " done").
Proof.
  destruct (spinner_stop_line
              (mkProcess true (Some (lit "1")) None None None None)
              (lit "done") false new_Spinner ltac:(discriminate))
    as (_ & _ & H).
  destruct (H eq_refl eq_refl) as [L S]. split; [exact S | exact L].
Defined.

(** X19.  When standard output is no terminal, whatever the environment,
    the logger and the spinner write whole lines only and add no escape
    sequence: a text free of the escape character is printed free of it,
    and the spinner sets no timer. *)
Theorem piped_output_is_plain (p : Process) (text : jsstring)
    (error : bool) (s : Spinner) :
  isTTY p = false ->
  ~ In 27%N text ->
  Forall plain_line
    ([ Logger.info p text None; Logger.success p text;
       Logger.error p text; Logger.warning p text; Logger.dim p text ]
     ++ snd (start p text s) ++ snd (stop p (Some text) error s))
  /\ timers (fst (start p text s)) = timers s.
Proof.
  intros Ht Hn.
  assert (P : forall pre, ~ In 27%N pre -> plain_line (ConsoleLog (pre ++ text))).
  { intros pre Hp. exists (pre ++ text). split; [reflexivity|].
    rewrite in_app_iff. tauto. }
  unfold start, stop, isInteractive, Logger.success, Logger.error,
    Logger.warning, Logger.dim, Logger.info, Logger.shouldUseColors.
  rewrite Ht. cbn [andb negb app snd fst].
  split; [|reflexivity].
  repeat constructor.
  - apply (P []). intros [].
  - apply (P (check_mark ++ lit " ")). cbn. intuition discriminate.
  - apply (P (cross_mark ++ lit " ")). cbn. intuition discriminate.
  - apply (P (warning_sign ++ lit "  ")). cbn. intuition discriminate.
  - apply (P []). intros [].
  - apply (P []). intros [].
  - destruct text as [|c t]; [constructor|].
    destruct error; repeat constructor.
    + apply (P (cross_mark ++ lit " ")). cbn. intuition discriminate.
    + apply (P (check_mark ++ lit " ")). cbn. intuition discriminate.
Qed.

(** Output piped to a file, with [CI] set. *)
Lemma piped_output_is_plain_witness :
  plain_line
    (Logger.info (mkProcess false None (Some (lit "true")) None None None)
                 (lit "Skipping") None).
Proof.
  exact (Forall_inv
           (proj1 (piped_output_is_plain
                     (mkProcess false None (Some (lit "true")) None None None)
                     (lit "Skipping") false new_Spinner eq_refl
                     ltac:(cbn; intuition discriminate)))).
Defined.

End TerminalFacts.
